(** * Sistem Validasi Registrasi Mahasiswa: a shallow embedding

    The development follows [Sistem_Validasi_Registrasi_Mahasiswa.py]:
    the dataclasses [Course] and [Registration], the three validation
    rules ([SksLimitRule], [PrerequisiteRule], [JadwalBentrokRule]), the
    helper [format_time] and the coordinator [RegistrationService].

    Python integers are unbounded, so they are [Z]; [str] is [string];
    the [set] built by [PrerequisiteRule] is a [gset string].  Methods are
    computations in a state-and-exception monad over a [Store] holding
    the objects a call can reach (the service with its rules, the
    registration with its courses) and the sink behind the module-level
    [logger]. *)

From Stdlib Require Import ZArith String Ascii.
From stdpp Require Import base numbers strings list gmap pretty.

Open Scope Z_scope.

(** ** Models *)

(** [ScheduleEntry = Tuple[str, int, int]]: (day, start_minute, end_minute). *)
Definition ScheduleEntry : Type := string * Z * Z.

Record Course := mkCourse {
  code : string;
  name : string;
  sks : Z;
  prerequisites : list string;
  schedule : list ScheduleEntry
}.

Record Registration := mkRegistration {
  student_name : string;
  completed_courses : list string;
  selected_courses : list Course
}.

(** ** The rule objects

    [IValidationRule] is the abstract base; its three concrete subclasses
    are the constructors.  Only [SksLimitRule] has an attribute. *)
Inductive IValidationRule :=
| SksLimitRule (max_sks : Z)
| PrerequisiteRule
| JadwalBentrokRule.

Record RegistrationService := mkRegistrationService {
  rules : list IValidationRule
}.

(** ** Logging

    [logger.info], [logger.warning] and [logger.error] hand a record to
    whatever the logging configuration has installed.  The sink is an
    interface: any state type with a [handle] function. *)
Inductive Level := INFO | WARNING | ERROR.

Record LogRecord := mkLogRecord {
  levelname : Level;
  msg_of : string
}.

Class Handler (Sink : Type) := handle : LogRecord -> Sink -> Sink.

(** A sink that keeps every record, oldest first. *)
#[export] Instance recording : Handler (list LogRecord) :=
  fun r sink => sink ++ [r].

(** Logging switched off: nothing is kept. *)
#[export] Instance disabled : Handler unit :=
  fun _ sink => sink.

(** A sink that only keeps records at [WARNING] and above. *)
Definition at_least_warning (l : Level) : bool :=
  match l with INFO => false | _ => true end.

Definition warnings_only : Handler (list LogRecord) :=
  fun r sink => if at_least_warning (levelname r) then sink ++ [r] else sink.

(** ** The store and the monad *)

Record Store (Sink : Type) := mkStore {
  st_self : RegistrationService;
  st_registration : Registration;
  st_sink : Sink
}.
Arguments mkStore {Sink} _ _ _.
Arguments st_self {Sink} _.
Arguments st_registration {Sink} _.
Arguments st_sink {Sink} _.

Inductive exn := IndexError.

Inductive result (A : Type) :=
| Ok (a : A)
| Raise (e : exn).
Arguments Ok {A} _.
Arguments Raise {A} _.

Definition M (Sink A : Type) : Type := Store Sink -> result A * Store Sink.

#[export] Instance M_ret {Sink} : MRet (M Sink) :=
  fun A a s => (Ok a, s).

#[export] Instance M_bind {Sink} : MBind (M Sink) :=
  fun A B f m s =>
    match m s with
    | (Ok a, s') => f a s'
    | (Raise e, s') => (Raise e, s')
    end.

Definition gets {Sink A} (f : Store Sink -> A) : M Sink A :=
  fun s => (Ok (f s), s).

Definition raise {Sink A} (e : exn) : M Sink A :=
  fun s => (Raise e, s).

Definition log_sink {Sink} `{Handler Sink} (r : LogRecord) (s : Store Sink)
  : Store Sink :=
  mkStore (st_self s) (st_registration s) (handle r (st_sink s)).

Definition logger_log {Sink} `{Handler Sink} (l : Level) (msg : string)
  : M Sink unit :=
  fun s => (Ok tt, log_sink (mkLogRecord l msg) s).

Definition logger_info {Sink} `{Handler Sink} := logger_log (Sink:=Sink) INFO.
Definition logger_warning {Sink} `{Handler Sink} := logger_log (Sink:=Sink) WARNING.
Definition logger_error {Sink} `{Handler Sink} := logger_log (Sink:=Sink) ERROR.

(** [xs[i]]: raises [IndexError] out of range. *)
Definition index {Sink A} (xs : list A) (i : nat) : M Sink A :=
  match xs !! i with
  | Some x => mret x
  | None => raise IndexError
  end.

(** [range(a, b)] over naturals. *)
Definition range (a b : nat) : list nat := seq a (b - a).

(** A [for] loop whose body may [return]: the body yields [Some v] to
    return [v] from the enclosing function and [None] to go on (the end
    of the body, or [continue]). *)
Fixpoint for_in {Sink X R} (xs : list X) (body : X -> M Sink (option R))
  : M Sink (option R) :=
  match xs with
  | [] => mret None
  | x :: xs' =>
      r ← body x;
      match r with
      | Some v => mret (Some v)
      | None => for_in xs' body
      end
  end.

(** A [for] loop that updates a local variable [acc] in its body. *)
Fixpoint for_acc {Sink X B} (xs : list X) (acc : B) (body : B -> X -> M Sink B)
  : M Sink B :=
  match xs with
  | [] => mret acc
  | x :: xs' => acc' ← body acc x; for_acc xs' acc' body
  end.

(** ** String formatting *)

(** [str(n)] for an [int]. *)
Definition str_int (n : Z) : string := pretty n.

(** [sep.join(xs)]. *)
Fixpoint join (sep : string) (xs : list string) : string :=
  match xs with
  | [] => ""
  | [x] => x
  | x :: xs' => x +:+ sep +:+ join sep xs'
  end.

(** The format specification [02d]: sign-aware zero padding to width 2. *)
Definition zero_pad (width : nat) (digits : string) : string :=
  string_of_list_ascii (replicate (width - String.length digits) "0"%char)
  +:+ digits.

Definition format_02d (n : Z) : string :=
  let sign := if n <? 0 then "-" else "" in
  sign +:+ zero_pad (2 - String.length sign) (pretty (Z.abs n)).

(** [format_time]: minutes of the day as HH:MM.  Python's [//] and [%]
    floor, as [Z.div] and [Z.modulo] do. *)
Definition format_time (minutes : Z) : string :=
  let h := minutes / 60 in
  let m := minutes mod 60 in
  format_02d h +:+ ":" +:+ format_02d m.

(** [minutes(h, m)] of the demo. *)
Definition minutes (h m : Z) : Z := h * 60 + m.

(** [sum(...)]: starts from 0 and adds from the left. *)
Definition sum (xs : list Z) : Z := fold_left Z.add xs 0.

(** Attribute reads through the two references a method receives:
    [registration field] is [registration.field] and [self field] is
    [self.field] of the service. *)
Definition registration {Sink A} (field : Registration -> A) : M Sink A :=
  gets (fun s => field (st_registration s)).

Definition self {Sink A} (field : RegistrationService -> A) : M Sink A :=
  gets (fun s => field (st_self s)).

(** ** SksLimitRule.validate *)
Definition SksLimitRule_validate {Sink} `{Handler Sink} (max_sks : Z)
  : M Sink (bool * string) :=
  courses ← registration selected_courses;
  let total := sum (map sks courses) in
  logger_info ("Memeriksa total SKS: " +:+ str_int total +:+ "/"
               +:+ str_int max_sks);;
  if total >? max_sks then
    let msg := "Total SKS (" +:+ str_int total
               +:+ ") melebihi batas maksimum (" +:+ str_int max_sks +:+ ")." in
    logger_warning msg;;
    mret (false, msg)
  else
    mret (true, "SKS OK.").

(** ** PrerequisiteRule.validate *)

(** The two nested loops that fill [missing] by [append]. *)
Definition collect_missing (completed : gset string) (courses : list Course)
  : list (string * string) :=
  fold_left
    (fun missing course =>
       fold_left
         (fun missing pre =>
            if bool_decide (pre ∉ completed)
            then missing ++ [(code course, pre)]
            else missing)
         (prerequisites course) missing)
    courses [].

Definition PrerequisiteRule_validate {Sink} `{Handler Sink}
  : M Sink (bool * string) :=
  completed_list ← registration completed_courses;
  let completed : gset string := list_to_set completed_list in
  logger_info "Memeriksa prasyarat mata kuliah...";;
  courses ← registration selected_courses;
  let missing := collect_missing completed courses in
  match missing with
  | _ :: _ =>
      let msgs := map (fun '(c, p) => c +:+ " butuh " +:+ p) missing in
      let full_msg := "Prasyarat tidak terpenuhi: " +:+ join ", " msgs in
      logger_warning full_msg;;
      mret (false, full_msg)
  | [] => mret (true, "Prasyarat OK.")
  end.

(** ** JadwalBentrokRule.validate *)

(** An element of [entries]: (day, start, end, course_code). *)
Definition Entry : Type := string * Z * Z * string.

(** The two nested loops that fill [entries] by [append]. *)
Definition collect_entries (courses : list Course) : list Entry :=
  fold_left
    (fun entries course =>
       fold_left
         (fun entries '(day, s, e) => entries ++ [(day, s, e, code course)])
         (schedule course) entries)
    courses [].

Definition JadwalBentrokRule_validate {Sink} `{Handler Sink}
  : M Sink (bool * string) :=
  logger_info "Memeriksa bentrok jadwal...";;
  courses ← registration selected_courses;
  let entries := collect_entries courses in
  r ← for_in (range 0 (length entries)) (fun i =>
        '(day_i, s_i, e_i, c_i) ← index entries i;
        for_in (range (i + 1) (length entries)) (fun j =>
          '(day_j, s_j, e_j, c_j) ← index entries j;
          if negb (String.eqb day_i day_j) then
            mret None
          else if (s_i <? e_j) && (s_j <? e_i) then
            let start_str := format_time s_i in
            let end_str := format_time e_i in
            let start_j_str := format_time s_j in
            let end_j_str := format_time e_j in
            let msg := "Jadwal bentrok antara " +:+ c_i +:+ " (" +:+ start_str
                       +:+ "-" +:+ end_str +:+ ") dan " +:+ c_j +:+ " ("
                       +:+ start_j_str +:+ "-" +:+ end_j_str +:+ ")" in
            logger_warning msg;;
            mret (Some (false, msg))
          else
            mret None));
  match r with
  | Some v => mret v
  | None => mret (true, "Tidak ada jadwal bentrok.")
  end.

(** ** Dynamic dispatch of [rule.validate(registration)] *)
Definition validate {Sink} `{Handler Sink} (rule : IValidationRule)
  : M Sink (bool * string) :=
  match rule with
  | SksLimitRule max_sks => SksLimitRule_validate max_sks
  | PrerequisiteRule => PrerequisiteRule_validate
  | JadwalBentrokRule => JadwalBentrokRule_validate
  end.

(** ** RegistrationService *)

(** [RegistrationService.__init__]. *)
Definition RegistrationService_init (rules : list IValidationRule)
  : RegistrationService :=
  mkRegistrationService rules.

Definition run_registration {Sink} `{Handler Sink}
  : M Sink (bool * list string) :=
  student ← registration student_name;
  logger_info ("Memulai validasi pendaftaran untuk: " +:+ student);;
  rs ← self rules;
  errors ← for_acc rs [] (fun errors rule =>
    '(ok, msg) ← validate rule;
    if negb ok then mret (errors ++ [msg]) else mret errors);
  match errors with
  | _ :: _ =>
      logger_error ("Validasi gagal dengan "
                    +:+ str_int (Z.of_nat (length errors)) +:+ " error.");;
      mret (false, errors)
  | [] =>
      logger_info "Semua validasi berhasil.";;
      mret (true, ["Validasi sukses."])
  end.

(** ** The demo data *)
Definition mat101 : Course :=
  mkCourse "MAT101" "Matematika Dasar" 3 []
           [("Senin", minutes 9 0, minutes 11 0)].
Definition fis201 : Course :=
  mkCourse "FIS201" "Fisika I" 4 ["MAT101"]
           [("Senin", minutes 10 30, minutes 12 0)].
Definition ifs300 : Course :=
  mkCourse "IFS300" "Ilmu Komputer Lanjut" 3 ["MAT101"; "FIS201"]
           [("Selasa", minutes 9 0, minutes 11 0)].
Definition reg : Registration :=
  mkRegistration "Ani" ["MAT101"] [mat101; fis201; ifs300].
Definition demo_rules : list IValidationRule :=
  [SksLimitRule 24; PrerequisiteRule; JadwalBentrokRule].
Definition demo_store : Store (list LogRecord) :=
  mkStore (RegistrationService_init demo_rules) reg [].

(** ** Observations on a run *)

(** The store after the records [rs] have gone to the sink, in order. *)
Definition emits {Sink} `{Handler Sink} (rs : list LogRecord) (s : Store Sink)
  : Store Sink :=
  fold_left (fun s r => log_sink r s) rs s.

(** [runs m s v rs]: from [s], [m] returns [v] without raising, and its
    only effect is to log [rs]. *)
Definition runs {Sink} `{Handler Sink} {A} (m : M Sink A) (s : Store Sink)
  (v : A) (rs : list LogRecord) : Prop :=
  m s = (Ok v, emits rs s).

(** A store for a registration on which nothing has been logged yet and
    whose sink keeps everything. *)
Definition fresh (svc : RegistrationService) (r : Registration)
  : Store (list LogRecord) :=
  mkStore svc r [].

(** What [rule.validate(registration)] returns with logging switched off. *)
Definition outcome_of (rule : IValidationRule) (r : Registration)
  : result (bool * string) :=
  fst (validate (Sink:=unit) rule (mkStore (RegistrationService_init []) r tt)).

(** What [rule.validate(registration)] logs, on a sink that keeps
    everything. *)
Definition records_of (rule : IValidationRule) (r : Registration)
  : list LogRecord :=
  st_sink (snd (validate rule (fresh (RegistrationService_init []) r))).

(** [sub in s] for strings. *)
Fixpoint contains (sub s : string) : bool :=
  String.prefix sub s ||
  match s with
  | EmptyString => false
  | String _ s' => contains sub s'
  end.

(** ** The vocabulary of the specification *)

(** Sum of the credit weights of the selected courses. *)
Definition total_credits (r : Registration) : Z :=
  foldr Z.add 0 (map sks (selected_courses r)).

(** The failure message of the credit rule. *)
Definition credit_message (total max_credits : Z) : string :=
  "Total SKS (" +:+ str_int total +:+ ") melebihi batas maksimum ("
  +:+ str_int max_credits +:+ ").".

(** Every (course code, prerequisite) pair whose prerequisite is not
    among the completed courses, course by course. *)
Definition missing_pairs (r : Registration) : list (string * string) :=
  flat_map
    (fun c =>
       map (pair (code c))
           (filter (fun p => p ∉ completed_courses r) (prerequisites c)))
    (selected_courses r).

Definition prerequisite_message (missing : list (string * string)) : string :=
  "Prasyarat tidak terpenuhi: "
  +:+ join ", " (map (fun '(c, p) => c +:+ " butuh " +:+ p) missing).

(** The schedule entries of the selected courses, each tagged with the
    code of its course: courses in selection order, then entries in
    schedule order. *)
Definition tag (c : Course) (x : ScheduleEntry) : Entry :=
  (x.1.1, x.1.2, x.2, code c).

Definition entries_of (courses : list Course) : list Entry :=
  flat_map (fun c => map (tag c) (schedule c)) courses.

Definition flattened (r : Registration) : list Entry :=
  entries_of (selected_courses r).

Definition day_of (a : Entry) : string := a.1.1.1.
Definition start_of (a : Entry) : Z := a.1.1.2.
Definition end_of (a : Entry) : Z := a.1.2.
Definition course_of (a : Entry) : string := a.2.

(** Half-open overlap on the same day. *)
Definition overlap (a b : Entry) : Prop :=
  day_of a = day_of b /\ start_of a < end_of b /\ start_of b < end_of a.

Definition overlapb (a b : Entry) : bool :=
  String.eqb (day_of a) (day_of b)
  && (start_of a <? end_of b) && (start_of b <? end_of a).

(** Positions [i < j] of the entry list hold an overlapping pair. *)
Definition conflict_at (entries : list Entry) (i j : nat) : Prop :=
  (i < j)%nat /\
  exists a b, entries !! i = Some a /\ entries !! j = Some b /\ overlap a b.

(** [(i', j')] is visited before [(i, j)] by the scan: outer index first,
    then inner index. *)
Definition scanned_before (i' j' i j : nat) : Prop :=
  (i' < i)%nat \/ (i' = i /\ (j' < j)%nat).

(** [(i, j)] is the first overlapping pair in scan order. *)
Definition first_conflict_at (entries : list Entry) (i j : nat) : Prop :=
  conflict_at entries i j /\
  forall i' j', scanned_before i' j' i j -> ~ conflict_at entries i' j'.

Definition conflict_message (a b : Entry) : string :=
  "Jadwal bentrok antara " +:+ course_of a +:+ " (" +:+ format_time (start_of a)
  +:+ "-" +:+ format_time (end_of a) +:+ ") dan " +:+ course_of b +:+ " ("
  +:+ format_time (start_of b) +:+ "-" +:+ format_time (end_of b) +:+ ")".

(** A decision procedure for the scan order: the first later position
    that overlaps position [i], and the first position that has one. *)
Definition overlap_atb (entries : list Entry) (i j : nat) : bool :=
  match entries !! i, entries !! j with
  | Some a, Some b => overlapb a b
  | _, _ => false
  end.

Definition partner_of (entries : list Entry) (i : nat) : option nat :=
  find (overlap_atb entries i) (range (i + 1) (length entries)).

Definition first_pair (entries : list Entry) : option (nat * nat) :=
  match find (fun i => bool_decide (is_Some (partner_of entries i)))
             (range 0 (length entries)) with
  | Some i => pair i <$> partner_of entries i
  | None => None
  end.

(** The aggregate of a list of rule outcomes. *)
Definition aggregate (outs : list (bool * string)) : bool * list string :=
  if forallb fst outs
  then (true, ["Validasi sukses."])
  else (false, map snd (List.filter (fun o => negb (fst o)) outs)).

(** The closing record of [run_registration]. *)
Definition closing_record (outs : list (bool * string)) : LogRecord :=
  if forallb fst outs
  then mkLogRecord INFO "Semua validasi berhasil."
  else
    let errors := List.filter (fun o => negb (fst o)) outs in
    mkLogRecord ERROR ("Validasi gagal dengan "
                       +:+ str_int (Z.of_nat (length errors)) +:+ " error.").

(** The opening record of [run_registration]. *)
Definition opening_record (r : Registration) : LogRecord :=
  mkLogRecord INFO ("Memulai validasi pendaftaran untuk: " +:+ student_name r).

(** ** Vocabulary of the further properties *)

(** Whether a rule accepts a registration, decided without running
    the rule. *)
Definition passes (rule : IValidationRule) (r : Registration) : bool :=
  match rule with
  | SksLimitRule max_sks => bool_decide (total_credits r <= max_sks)
  | PrerequisiteRule => bool_decide (missing_pairs r = [])
  | JadwalBentrokRule => bool_decide (first_pair (flattened r) = None)
  end.

(** The records of a log at a given level. *)
Definition same_level (l1 l2 : Level) : bool :=
  match l1, l2 with
  | INFO, INFO | WARNING, WARNING | ERROR, ERROR => true
  | _, _ => false
  end.

Definition at_level (l : Level) (log : list LogRecord) : list LogRecord :=
  List.filter (fun rec => same_level (levelname rec) l) log.

(** The character of a decimal digit. *)
Definition digit (d : Z) : ascii := ascii_of_nat (48 + Z.to_nat d).

(** ** The checkout coordinator of [refactor_solid.py]

    [Order.total_price] is a [float]; it is only ever formatted into a log
    line, so the price type and its formatting stay abstract.  A call
    can reach the order (whose [status] it assigns), the standard output
    that [print] writes to, and the sink behind [LOGGER]. *)
Module Checkout.

Record Order (Price : Type) := mkOrder {
  customer_name : string;
  total_price : Price;
  status : string
}.
Arguments mkOrder {Price} _ _ _.
Arguments customer_name {Price} _.
Arguments total_price {Price} _.
Arguments status {Price} _.

(** [Order(customer_name, total_price)]: the status defaults to "open". *)
Definition Order_init {Price} (customer_name : string) (total_price : Price)
  : Order Price :=
  mkOrder customer_name total_price "open".

Record World (Price Sink : Type) := mkWorld {
  w_order : Order Price;
  w_stdout : list string;
  w_sink : Sink
}.
Arguments mkWorld {Price Sink} _ _ _.
Arguments w_order {Price Sink} _.
Arguments w_stdout {Price Sink} _.
Arguments w_sink {Price Sink} _.

Definition C (Price Sink A : Type) : Type :=
  World Price Sink -> A * World Price Sink.

#[global] Instance C_ret {Price Sink} : MRet (C Price Sink) :=
  fun A a w => (a, w).

#[global] Instance C_bind {Price Sink} : MBind (C Price Sink) :=
  fun A B f m w => let '(a, w') := m w in f a w'.

(** [order.field]. *)
Definition order {Price Sink A} (field : Order Price -> A) : C Price Sink A :=
  fun w => (field (w_order w), w).

(** [order.status = value]. *)
Definition set_status {Price Sink} (value : string) : C Price Sink unit :=
  fun w =>
    (tt, mkWorld (mkOrder (customer_name (w_order w)) (total_price (w_order w)) value)
                 (w_stdout w) (w_sink w)).

(** [print(line)]. *)
Definition print {Price Sink} (line : string) : C Price Sink unit :=
  fun w => (tt, mkWorld (w_order w) (w_stdout w ++ [line]) (w_sink w)).

Definition LOGGER_log {Price Sink} `{Handler Sink} (l : Level) (msg : string)
  : C Price Sink unit :=
  fun w => (tt, mkWorld (w_order w) (w_stdout w)
                        (handle (mkLogRecord l msg) (w_sink w))).

(** The two contracts. *)
Class IPaymentProcessor (Price Sink P : Type) :=
  process : P -> C Price Sink bool.

Class INotificationService (Price Sink N : Type) :=
  send : N -> C Price Sink unit.

Inductive CreditCardProcessor := mkCreditCardProcessor.
Inductive EmailNotifier := mkEmailNotifier.

#[global] Instance CreditCardProcessor_process {Price Sink}
  : IPaymentProcessor Price Sink CreditCardProcessor :=
  fun _ =>
    print "Payment: Memproses Kartu Kredit.";;
    mret true.

#[global] Instance EmailNotifier_send {Price Sink}
  : INotificationService Price Sink EmailNotifier :=
  fun _ =>
    name ← order customer_name;
    print ("Notif: Mengirim email konfirmasi ke " +:+ name +:+ ".").

Record CheckoutService (P N : Type) := mkCheckoutService {
  payment_processor : P;
  notifier : N
}.
Arguments mkCheckoutService {P N} _ _.
Arguments payment_processor {P N} _.
Arguments notifier {P N} _.

Definition run_checkout {Price Sink P N} `{Handler Sink}
  `{IPaymentProcessor Price Sink P} `{INotificationService Price Sink N}
  (str_price : Price -> string) (self : CheckoutService P N)
  : C Price Sink bool :=
  name ← order customer_name;
  total ← order total_price;
  LOGGER_log INFO ("Memulai checkout untuk " +:+ name +:+ ". Total: "
                   +:+ str_price total);;
  payment_success ← process (payment_processor self);
  if payment_success : bool then
    set_status "paid";;
    send (notifier self);;
    LOGGER_log INFO "Checkout Sukses. Status pesanan: PAID.";;
    mret true
  else
    LOGGER_log ERROR "Pembayaran gagal. Transaksi dibatalkan.";;
    mret false.

End Checkout.

(** * Properties *)

(** ** Running computations *)

Section Running.
Context {Sink : Type} `{!Handler Sink}.

Lemma emits_app (r1 r2 : list LogRecord) (s : Store Sink) :
  emits (r1 ++ r2) s = emits r2 (emits r1 s).
Proof. unfold emits. apply fold_left_app. Qed.

Lemma st_registration_emits (rs : list LogRecord) (s : Store Sink) :
  st_registration (emits rs s) = st_registration s.
Proof.
  revert s. induction rs as [|r rs IH]; intros s; [done|].
  change (emits (r :: rs) s) with (emits rs (log_sink r s)). by rewrite IH.
Qed.

Lemma st_self_emits (rs : list LogRecord) (s : Store Sink) :
  st_self (emits rs s) = st_self s.
Proof.
  revert s. induction rs as [|r rs IH]; intros s; [done|].
  change (emits (r :: rs) s) with (emits rs (log_sink r s)). by rewrite IH.
Qed.

Lemma runs_ret {A} (a : A) s : runs (mret a) s a [].
Proof. done. Qed.

Lemma runs_bind {A B} (m : M Sink A) (f : A -> M Sink B) s a r1 b r2 :
  runs m s a r1 -> runs (f a) (emits r1 s) b r2 ->
  runs (m ≫= f) s b (r1 ++ r2).
Proof.
  unfold runs. intros Hm Hf. unfold mbind, M_bind.
  by rewrite Hm, Hf, emits_app.
Qed.

(** The three shapes of [runs_bind] the proofs below use. *)
Lemma runs_bind_silent {A B} (m : M Sink A) (f : A -> M Sink B) s a b rs :
  runs m s a [] -> runs (f a) s b rs -> runs (m ≫= f) s b rs.
Proof. intros Hm Hf. by apply (runs_bind m f s a [] b rs). Qed.

Lemma runs_bind_last {A B} (m : M Sink A) (f : A -> M Sink B) s a b rs :
  runs m s a rs -> runs (f a) (emits rs s) b [] -> runs (m ≫= f) s b rs.
Proof.
  intros Hm Hf. rewrite <- (app_nil_r rs). by apply (runs_bind m f s a rs b []).
Qed.

Lemma runs_bind_log {B} l msg (f : unit -> M Sink B) s b rs :
  runs (f tt) (emits [mkLogRecord l msg] s) b rs ->
  runs (logger_log l msg ≫= f) s b (mkLogRecord l msg :: rs).
Proof.
  intros Hf. by apply (runs_bind _ f s tt [mkLogRecord l msg] b rs).
Qed.

Lemma runs_registration {A} (field : Registration -> A) s :
  runs (registration field) s (field (st_registration s)) [].
Proof. done. Qed.

Lemma runs_self {A} (field : RegistrationService -> A) s :
  runs (self field) s (field (st_self s)) [].
Proof. done. Qed.

Lemma runs_log l msg s : runs (logger_log l msg) s tt [mkLogRecord l msg].
Proof. done. Qed.

Lemma runs_index {A} (xs : list A) i x s :
  xs !! i = Some x -> runs (index xs i) s x [].
Proof. intros Hx. unfold index. by rewrite Hx. Qed.

(** A [for] loop with [return] stops at the first element on which its
    body returns, when the bodies before it log nothing. *)
Lemma runs_for_in {X R} (body : X -> M Sink (option R)) (xs : list X)
  (p : X -> bool) s :
  (forall x, x ∈ xs -> p x = false -> runs (body x) s None []) ->
  match find p xs with
  | Some x =>
      forall v rs, runs (body x) s (Some v) rs ->
                   runs (for_in xs body) s (Some v) rs
  | None => runs (for_in xs body) s None []
  end.
Proof.
  intros Hmiss. induction xs as [|x xs IH]; [done|].
  cbn [find for_in]. destruct (p x) eqn:Hp.
  - intros v rs Hx. unfold runs, mbind, M_bind in *. by rewrite Hx.
  - pose proof (Hmiss x (list_elem_of_here _ _) Hp) as Hx.
    assert (IH' := IH (fun y Hy => Hmiss y (list_elem_of_further _ _ _ Hy))).
    unfold runs, mbind, M_bind in *. rewrite Hx. cbn.
    destruct (find p xs); exact IH'.
Qed.

(** A [for] loop over an accumulator whose body never raises and only
    logs. *)
Lemma runs_for_acc {X B} (body : B -> X -> M Sink B) (xs : list X)
  (step : B -> X -> B) (rs : X -> list LogRecord) acc s :
  (forall b x s', st_registration s' = st_registration s ->
                  runs (body b x) s' (step b x) (rs x)) ->
  runs (for_acc xs acc body) s (fold_left step xs acc) (flat_map rs xs).
Proof.
  intros Hbody. revert acc s Hbody.
  induction xs as [|x xs IH]; intros acc s Hbody; [done|].
  cbn [for_acc fold_left flat_map].
  eapply runs_bind; [by apply Hbody|]. apply IH.
  intros b y s' Hs'. apply Hbody. by rewrite Hs', st_registration_emits.
Qed.

End Running.

(** ** The loops that build lists *)

Lemma fold_left_add (xs : list Z) (a : Z) :
  fold_left Z.add xs a = a + foldr Z.add 0 xs.
Proof.
  revert a. induction xs as [|x xs IH]; intros a; cbn; [lia|].
  rewrite IH. lia.
Qed.

Lemma sum_total (r : Registration) :
  sum (map sks (selected_courses r)) = total_credits r.
Proof. unfold sum, total_credits. rewrite fold_left_add. lia. Qed.

Lemma collect_missing_inner (cl : list string) (c : Course)
  (ps : list string) (acc : list (string * string)) :
  fold_left
    (fun missing pre =>
       if bool_decide (pre ∉ (list_to_set cl : gset string))
       then missing ++ [(code c, pre)] else missing) ps acc
  = acc ++ map (pair (code c)) (filter (fun p => p ∉ cl) ps).
Proof.
  revert acc. induction ps as [|p ps IH]; intros acc; cbn [fold_left].
  - by rewrite app_nil_r.
  - rewrite IH, filter_cons. case_bool_decide as Hp; rewrite elem_of_list_to_set in Hp.
    + destruct (decide (p ∉ cl)); [|done]. cbn. by rewrite <- app_assoc.
    + destruct (decide (p ∉ cl)); [done|done].
Qed.

Lemma collect_missing_outer (cl : list string) (courses : list Course)
  (acc : list (string * string)) :
  fold_left
    (fun missing course =>
       fold_left
         (fun missing pre =>
            if bool_decide (pre ∉ (list_to_set cl : gset string))
            then missing ++ [(code course, pre)] else missing)
         (prerequisites course) missing)
    courses acc
  = acc ++ flat_map
             (fun c => map (pair (code c))
                           (filter (fun p => p ∉ cl) (prerequisites c)))
             courses.
Proof.
  revert acc. induction courses as [|c cs IH]; intros acc; cbn [fold_left flat_map].
  - by rewrite app_nil_r.
  - rewrite collect_missing_inner, IH. by rewrite <- app_assoc.
Qed.

Lemma collect_missing_flat (r : Registration) :
  collect_missing (list_to_set (completed_courses r)) (selected_courses r)
  = missing_pairs r.
Proof. unfold collect_missing. by rewrite collect_missing_outer. Qed.

Lemma collect_entries_inner (c : Course) (sch : list ScheduleEntry)
  (acc : list Entry) :
  fold_left (fun entries '(day, s, e) => entries ++ [(day, s, e, code c)]) sch acc
  = acc ++ map (tag c) sch.
Proof.
  revert acc. induction sch as [|[[d st] en] sch IH]; intros acc; cbn [fold_left].
  - by rewrite app_nil_r.
  - rewrite IH. cbn. by rewrite <- app_assoc.
Qed.

Lemma collect_entries_outer (courses : list Course) (acc : list Entry) :
  fold_left
    (fun entries course =>
       fold_left
         (fun entries '(day, s, e) => entries ++ [(day, s, e, code course)])
         (schedule course) entries)
    courses acc
  = acc ++ flat_map (fun c => map (tag c) (schedule c)) courses.
Proof.
  revert acc. induction courses as [|c cs IH]; intros acc; cbn [fold_left flat_map].
  - by rewrite app_nil_r.
  - rewrite collect_entries_inner, IH. by rewrite <- app_assoc.
Qed.

Lemma collect_entries_flat (r : Registration) :
  collect_entries (selected_courses r) = flattened r.
Proof. unfold collect_entries. by rewrite collect_entries_outer. Qed.

(** ** The scan order *)

Lemma overlapb_spec (a b : Entry) : overlapb a b = true <-> overlap a b.
Proof.
  unfold overlapb, overlap.
  rewrite !andb_true_iff, String.eqb_eq, !Z.ltb_lt. tauto.
Qed.

Lemma overlap_atb_spec (entries : list Entry) (i j : nat) :
  (i < j)%nat -> overlap_atb entries i j = true <-> conflict_at entries i j.
Proof.
  intros Hij. unfold overlap_atb, conflict_at. split.
  - destruct (entries !! i) as [a|] eqn:Ha; [|done].
    destruct (entries !! j) as [b|] eqn:Hb; [|done].
    intros Hab. split; [done|]. exists a, b. by rewrite <- overlapb_spec.
  - intros (_ & a & b & -> & -> & Hab). by apply overlapb_spec.
Qed.

Lemma find_seq_Some (p : nat -> bool) (a n j : nat) :
  find p (seq a n) = Some j <->
  (a <= j < a + n)%nat /\ p j = true /\
  forall k, (a <= k < j)%nat -> p k = false.
Proof.
  revert a. induction n as [|n IH]; intros a; cbn [seq find].
  - split; [done|lia].
  - destruct (p a) eqn:Hpa.
    + split.
      * intros [= <-]. repeat split; [lia..|done|lia].
      * intros (Hr & Hj & Hk). f_equal.
        destruct (decide (a = j)) as [|Hne]; [done|].
        rewrite Hk in Hpa by lia. done.
    + rewrite IH. split.
      * intros (Hr & Hj & Hk). repeat split; [lia..|done|].
        intros k Hka. destruct (decide (k = a)) as [->|]; [done|]. apply Hk. lia.
      * intros (Hr & Hj & Hk).
        assert (a <> j) by (intros ->; congruence).
        repeat split; [lia..|done|]. intros k Hka. apply Hk. lia.
Qed.

Lemma find_seq_None (p : nat -> bool) (a n : nat) :
  find p (seq a n) = None <-> forall k, (a <= k < a + n)%nat -> p k = false.
Proof.
  revert a. induction n as [|n IH]; intros a; cbn [seq find].
  - split; [lia|done].
  - destruct (p a) eqn:Hpa.
    + split; [done|]. intros Hk. rewrite Hk in Hpa by lia. done.
    + rewrite IH. split.
      * intros Hk k Hka. destruct (decide (k = a)) as [->|]; [done|]. apply Hk. lia.
      * intros Hk k Hka. apply Hk. lia.
Qed.

Lemma conflict_at_lt (entries : list Entry) (i j : nat) :
  conflict_at entries i j -> (i < j < length entries)%nat.
Proof.
  intros (Hij & a & b & _ & Hb & _). apply lookup_lt_Some in Hb. lia.
Qed.

Lemma partner_of_Some (entries : list Entry) (i j : nat) :
  partner_of entries i = Some j <->
  conflict_at entries i j /\
  forall j', (j' < j)%nat -> ~ conflict_at entries i j'.
Proof.
  unfold partner_of, range. rewrite find_seq_Some. split.
  - intros (Hr & Hj & Hk). split.
    + apply overlap_atb_spec; [lia|done].
    + intros j' Hj' Hc. pose proof (conflict_at_lt _ _ _ Hc) as Hlt.
      apply overlap_atb_spec in Hc; [|lia]. rewrite Hk in Hc by lia. done.
  - intros (Hc & Hk). pose proof (conflict_at_lt _ _ _ Hc) as Hlt.
    repeat split; [lia..| |].
    + apply overlap_atb_spec; [lia|done].
    + intros k Hkr. destruct (overlap_atb entries i k) eqn:Ho; [|done].
      apply overlap_atb_spec in Ho; [|lia]. destruct (Hk k); [lia|done].
Qed.

Lemma partner_of_None (entries : list Entry) (i : nat) :
  partner_of entries i = None <-> forall j, ~ conflict_at entries i j.
Proof.
  unfold partner_of, range. rewrite find_seq_None. split.
  - intros Hk j Hc. pose proof (conflict_at_lt _ _ _ Hc) as Hlt.
    apply overlap_atb_spec in Hc; [|lia]. rewrite Hk in Hc by lia. done.
  - intros Hn k Hkr. destruct (overlap_atb entries i k) eqn:Ho; [|done].
    apply overlap_atb_spec in Ho; [|lia]. by destruct (Hn k).
Qed.

Lemma first_pair_Some (entries : list Entry) (i j : nat) :
  first_pair entries = Some (i, j) <-> first_conflict_at entries i j.
Proof.
  unfold first_pair, first_conflict_at, scanned_before, range. split.
  - destruct (find _ _) as [i0|] eqn:Hf; [|done].
    apply find_seq_Some in Hf as (Hr & Hi & Hk).
    destruct (partner_of entries i0) as [j0|] eqn:Hp; [|done].
    intros [= <- <-]. apply partner_of_Some in Hp as [Hc Hj]. split; [done|].
    intros i' j' [Hlt|[-> Hlt]]; [|by apply Hj].
    specialize (Hk i' ltac:(lia)). apply bool_decide_eq_false in Hk.
    destruct (partner_of entries i') eqn:Hp'; [by destruct Hk|].
    by apply partner_of_None.
  - intros [Hc Hfirst]. pose proof (conflict_at_lt _ _ _ Hc) as Hlt.
    assert (partner_of entries i = Some j) as Hp.
    { apply partner_of_Some. split; [done|]. intros j' Hj'. apply Hfirst. by right. }
    assert (find (fun i => bool_decide (is_Some (partner_of entries i)))
                 (seq 0 (length entries - 0)) = Some i) as ->.
    { apply find_seq_Some. repeat split; [lia..| |].
      - apply bool_decide_eq_true. by rewrite Hp.
      - intros k Hk. apply bool_decide_eq_false. intros [j' Hj'].
        apply partner_of_Some in Hj' as [Hc' _]. eapply Hfirst; [|done]. left. lia. }
    by rewrite Hp.
Qed.

Lemma first_pair_None (entries : list Entry) :
  first_pair entries = None <-> forall i j, ~ conflict_at entries i j.
Proof.
  unfold first_pair, range. split.
  - destruct (find _ _) as [i0|] eqn:Hf.
    + apply find_seq_Some in Hf as (_ & Hi & _). apply bool_decide_eq_true in Hi.
      destruct Hi as [j0 ->]. done.
    + intros _ i j Hc. pose proof (conflict_at_lt _ _ _ Hc) as Hlt.
      rewrite find_seq_None in Hf. specialize (Hf i ltac:(lia)).
      apply bool_decide_eq_false in Hf.
      destruct (partner_of entries i) eqn:Hp; [by destruct Hf|].
      rewrite partner_of_None in Hp. by apply (Hp j).
  - intros Hn. destruct (find _ _) as [i0|] eqn:Hf; [|done].
    apply find_seq_Some in Hf as (_ & Hi & _). apply bool_decide_eq_true in Hi.
    destruct Hi as [j0 Hj0]. apply partner_of_Some in Hj0 as [Hc _].
    by destruct (Hn i0 j0).
Qed.

(** ** What each rule returns and logs *)

Section Rules.
Context {Sink : Type} `{!Handler Sink}.

Lemma SksLimitRule_runs (max_sks : Z) (s : Store Sink) :
  let total := total_credits (st_registration s) in
  let info := mkLogRecord INFO ("Memeriksa total SKS: " +:+ str_int total
                                +:+ "/" +:+ str_int max_sks) in
  if total >? max_sks
  then runs (SksLimitRule_validate max_sks) s
            (false, credit_message total max_sks)
            [info; mkLogRecord WARNING (credit_message total max_sks)]
  else runs (SksLimitRule_validate max_sks) s (true, "SKS OK.") [info].
Proof.
  intros total info. unfold SksLimitRule_validate.
  unfold runs, mbind, M_bind, registration, gets. cbn.
  rewrite sum_total. fold total. by destruct (total >? max_sks).
Qed.

Lemma PrerequisiteRule_runs (s : Store Sink) :
  let missing := missing_pairs (st_registration s) in
  let info := mkLogRecord INFO "Memeriksa prasyarat mata kuliah..." in
  match missing with
  | [] => runs PrerequisiteRule_validate s (true, "Prasyarat OK.") [info]
  | _ :: _ =>
      runs PrerequisiteRule_validate s (false, prerequisite_message missing)
           [info; mkLogRecord WARNING (prerequisite_message missing)]
  end.
Proof.
  intros missing info. unfold PrerequisiteRule_validate.
  unfold runs, mbind, M_bind, registration, gets. cbn.
  rewrite collect_missing_flat. fold missing. by destruct missing.
Qed.

(** The body of the inner loop of [JadwalBentrokRule.validate], for
    the entry [(day_i, s_i, e_i, c_i)] of the outer loop. *)
Local Abbreviation inner_body entries day_i s_i e_i c_i :=
  (fun j : nat =>
     '(day_j, s_j, e_j, c_j) ← index (Sink:=Sink) entries j;
     if negb (String.eqb day_i day_j) then
       mret None
     else if (s_i <? e_j) && (s_j <? e_i) then
       let start_str := format_time s_i in
       let end_str := format_time e_i in
       let start_j_str := format_time s_j in
       let end_j_str := format_time e_j in
       let msg := "Jadwal bentrok antara " +:+ c_i +:+ " (" +:+ start_str
                  +:+ "-" +:+ end_str +:+ ") dan " +:+ c_j +:+ " ("
                  +:+ start_j_str +:+ "-" +:+ end_j_str +:+ ")" in
       logger_warning msg;;
       mret (Some (false, msg))
     else
       mret None).

Lemma inner_body_runs (entries : list Entry) (a b : Entry) (j : nat) s :
  entries !! j = Some b ->
  if overlapb a b
  then runs (inner_body entries (day_of a) (start_of a) (end_of a) (course_of a) j)
            s (Some (false, conflict_message a b))
            [mkLogRecord WARNING (conflict_message a b)]
  else runs (inner_body entries (day_of a) (start_of a) (end_of a) (course_of a) j)
            s None [].
Proof.
  intros Hb. destruct a as [[[day_i s_i] e_i] c_i], b as [[[day_j s_j] e_j] c_j].
  unfold overlapb, day_of, start_of, end_of, course_of; cbn [fst snd].
  unfold runs, index, mbind, M_bind. rewrite Hb. cbn.
  destruct (String.eqb day_i day_j); cbn; [|done].
  destruct (s_i <? e_j); cbn; [|done].
  by destruct (s_j <? e_i).
Qed.

Lemma inner_loop_runs (entries : list Entry) (a : Entry) (i : nat) s :
  entries !! i = Some a ->
  match partner_of entries i with
  | Some j =>
      exists b, entries !! j = Some b /\
        runs (for_in (range (i + 1) (length entries))
                (inner_body entries (day_of a) (start_of a) (end_of a) (course_of a)))
             s (Some (false, conflict_message a b))
             [mkLogRecord WARNING (conflict_message a b)]
  | None =>
      runs (for_in (range (i + 1) (length entries))
              (inner_body entries (day_of a) (start_of a) (end_of a) (course_of a)))
           s None []
  end.
Proof.
  intros Ha. unfold partner_of.
  pose proof (runs_for_in
    (inner_body entries (day_of a) (start_of a) (end_of a) (course_of a))
    (range (i + 1) (length entries)) (overlap_atb entries i) s) as Hloop.
  assert (forall j, j ∈ range (i + 1) (length entries) ->
                    exists b, entries !! j = Some b) as Hin.
  { intros j Hj. apply elem_of_seq in Hj. apply lookup_lt_is_Some. lia. }
  destruct (find _ _) as [j|] eqn:Hf.
  - apply find_some in Hf as [Hj Ho]. apply list_elem_of_In, Hin in Hj as [b Hb].
    exists b. split; [done|]. apply Hloop.
    + intros k Hk Hko. destruct (Hin k Hk) as [c Hc].
      pose proof (inner_body_runs entries a c k s Hc) as Hrun.
      unfold overlap_atb in Hko. rewrite Ha, Hc in Hko. by rewrite Hko in Hrun.
    + pose proof (inner_body_runs entries a b j s Hb) as Hrun.
      unfold overlap_atb in Ho. rewrite Ha, Hb in Ho. by rewrite Ho in Hrun.
  - apply Hloop. intros k Hk Hko. destruct (Hin k Hk) as [c Hc].
    pose proof (inner_body_runs entries a c k s Hc) as Hrun.
    unfold overlap_atb in Hko. rewrite Ha, Hc in Hko. by rewrite Hko in Hrun.
Qed.

(** The body of the outer loop. *)
Local Abbreviation outer_body entries :=
  (fun i : nat =>
     '(day_i, s_i, e_i, c_i) ← index (Sink:=Sink) entries i;
     for_in (range (i + 1) (length entries))
            (inner_body entries day_i s_i e_i c_i)).

Lemma outer_body_runs (entries : list Entry) (a : Entry) (i : nat) s :
  entries !! i = Some a ->
  match partner_of entries i with
  | Some j =>
      exists b, entries !! j = Some b /\
        runs (outer_body entries i) s (Some (false, conflict_message a b))
             [mkLogRecord WARNING (conflict_message a b)]
  | None => runs (outer_body entries i) s None []
  end.
Proof.
  intros Ha. pose proof (inner_loop_runs entries a i s Ha) as Hinner.
  assert (outer_body entries i s
          = for_in (range (i + 1) (length entries))
              (inner_body entries (day_of a) (start_of a) (end_of a) (course_of a)) s)
    as Heq.
  { unfold index, mbind, M_bind. rewrite Ha. by destruct a as [[[? ?] ?] ?]. }
  unfold runs in *. rewrite Heq. exact Hinner.
Qed.

Lemma JadwalBentrokRule_runs (s : Store Sink) :
  let entries := flattened (st_registration s) in
  let info := mkLogRecord INFO "Memeriksa bentrok jadwal..." in
  match first_pair entries with
  | Some (i, j) =>
      exists a b, entries !! i = Some a /\ entries !! j = Some b /\
        runs JadwalBentrokRule_validate s (false, conflict_message a b)
             [info; mkLogRecord WARNING (conflict_message a b)]
  | None =>
      runs JadwalBentrokRule_validate s (true, "Tidak ada jadwal bentrok.") [info]
  end.
Proof.
  intros entries info.
  assert (forall (v : bool * string) rs,
    (forall s', match first_pair entries with
                | Some _ => runs (for_in (range 0 (length entries)) (outer_body entries))
                                 s' (Some v) rs
                | None => False
                end) ->
    runs JadwalBentrokRule_validate s v (info :: rs)) as Hsome.
  { intros v rs Hloop. unfold JadwalBentrokRule_validate.
    apply (runs_bind _ _ s tt [info] v rs); [apply runs_log|].
    rewrite <- (app_nil_l rs).
    eapply runs_bind; [apply runs_registration|].
    rewrite collect_entries_flat. fold entries.
    rewrite <- (app_nil_r rs).
    eapply (runs_bind _ _ _ (Some v) rs _ []); [|apply runs_ret].
    specialize (Hloop (emits [] (emits [info] s))).
    by destruct (first_pair entries). }
  assert (first_pair entries = None ->
    (forall s', runs (for_in (range 0 (length entries)) (outer_body entries))
                     s' None []) ->
    runs JadwalBentrokRule_validate s (true, "Tidak ada jadwal bentrok.") [info])
    as Hnone.
  { intros _ Hloop. unfold JadwalBentrokRule_validate.
    apply (runs_bind _ _ s tt [info] _ []); [apply runs_log|].
    eapply (runs_bind _ _ _ _ [] _ []); [apply runs_registration|].
    rewrite collect_entries_flat. fold entries.
    eapply (runs_bind _ _ _ None [] _ []); [apply Hloop|apply runs_ret]. }
  assert (forall s' i, i ∈ range 0 (length entries) ->
    bool_decide (is_Some (partner_of entries i)) = false ->
    runs (outer_body entries i) s' None []) as Hmiss.
  { intros s' i Hi Hp. apply elem_of_seq in Hi.
    destruct (lookup_lt_is_Some_2 entries i ltac:(lia)) as [a Ha].
    pose proof (outer_body_runs entries a i s' Ha) as Hrun.
    apply bool_decide_eq_false in Hp.
    destruct (partner_of entries i); [by destruct Hp|done]. }
  unfold first_pair in *.
  destruct (find _ _) as [i|] eqn:Hf.
  - pose proof Hf as Hf'. apply find_some in Hf' as [Hi Hp].
    apply list_elem_of_In, elem_of_seq in Hi. apply bool_decide_eq_true in Hp.
    destruct Hp as [j Hj].
    destruct (lookup_lt_is_Some_2 entries i ltac:(lia)) as [a Ha].
    pose proof (fun s' => outer_body_runs entries a i s' Ha) as Hrun.
    rewrite Hj in *. cbn [fmap option_fmap option_map] in *.
    assert (exists b, entries !! j = Some b) as [b Hb].
    { destruct (Hrun s) as (b & Hb & _). by exists b. }
    exists a, b. repeat split; [done..|]. apply Hsome. intros s'.
    pose proof (runs_for_in (outer_body entries) (range 0 (length entries))
                  (fun i => bool_decide (is_Some (partner_of entries i))) s'
                  (Hmiss s')) as Hloop.
    rewrite Hf in Hloop. apply Hloop.
    destruct (Hrun s') as (b' & Hb' & Hr). by simplify_eq.
  - apply Hnone; [done|]. intros s'.
    pose proof (runs_for_in (outer_body entries) (range 0 (length entries))
                  (fun i => bool_decide (is_Some (partner_of entries i))) s'
                  (Hmiss s')) as Hloop.
    by rewrite Hf in Hloop.
Qed.

End Rules.

(** ** Every rule, on every sink *)

(** What a rule returns and what it logs depend on the registration
    alone, whatever the sink is and whatever it already holds. *)
Lemma validate_uniform (rule : IValidationRule) (r : Registration) :
  exists (v : bool * string) (rs : list LogRecord),
    forall (Sink : Type) (H : Handler Sink) (s : Store Sink),
      st_registration s = r -> runs (validate rule) s v rs.
Proof.
  destruct rule as [max_sks| |]; cbn [validate].
  - destruct (total_credits r >? max_sks) eqn:Hcmp; eexists _, _;
      intros Sink H s Hs; pose proof (SksLimitRule_runs max_sks s) as Hrun;
      cbn zeta in Hrun; rewrite Hs, Hcmp in Hrun; exact Hrun.
  - destruct (missing_pairs r) eqn:Hmiss; eexists _, _;
      intros Sink H s Hs; pose proof (PrerequisiteRule_runs s) as Hrun;
      cbn zeta in Hrun; rewrite Hs, Hmiss in Hrun; exact Hrun.
  - destruct (first_pair (flattened r)) as [[i j]|] eqn:Hpair.
    + destruct (lookup_lt_is_Some_2 (flattened r) i) as [a Ha].
      { apply first_pair_Some in Hpair as [Hc _]. apply conflict_at_lt in Hc. lia. }
      destruct (lookup_lt_is_Some_2 (flattened r) j) as [b Hb].
      { apply first_pair_Some in Hpair as [Hc _]. apply conflict_at_lt in Hc. lia. }
      exists (false, conflict_message a b),
        [mkLogRecord INFO "Memeriksa bentrok jadwal...";
         mkLogRecord WARNING (conflict_message a b)].
      intros Sink H s Hs.
      pose proof (JadwalBentrokRule_runs s) as Hrun. cbn zeta in Hrun.
      rewrite Hs, Hpair in Hrun. destruct Hrun as (a' & b' & Ha' & Hb' & Hrun).
      rewrite Ha in Ha'. rewrite Hb in Hb'. simplify_eq. exact Hrun.
    + eexists _, _. intros Sink H s Hs.
      pose proof (JadwalBentrokRule_runs s) as Hrun. cbn zeta in Hrun.
      rewrite Hs, Hpair in Hrun. exact Hrun.
Qed.

Lemma st_sink_emits_recording (rs : list LogRecord) (s : Store (list LogRecord)) :
  st_sink (emits rs s) = st_sink s ++ rs.
Proof.
  revert s. induction rs as [|r rs IH]; intros s.
  - by rewrite app_nil_r.
  - change (emits (r :: rs) s) with (emits rs (log_sink r s)).
    rewrite IH. cbn. unfold handle, recording. by rewrite <- app_assoc.
Qed.

Lemma validate_runs {Sink} `{!Handler Sink} (rule : IValidationRule)
  (s : Store Sink) :
  exists v, outcome_of rule (st_registration s) = Ok v /\
            runs (validate rule) s v (records_of rule (st_registration s)).
Proof.
  destruct (validate_uniform rule (st_registration s)) as (v & rs & Hrun).
  exists v. unfold outcome_of, records_of, fresh.
  rewrite (Hrun unit _ (mkStore _ (st_registration s) tt) eq_refl).
  rewrite (Hrun (list LogRecord) _ (mkStore _ (st_registration s) []) eq_refl).
  cbn [fst snd]. rewrite st_sink_emits_recording. split; [done|].
  by apply Hrun.
Qed.

(** ** The coordinator *)

Lemma outcomes_exist (rs : list IValidationRule) (r : Registration) :
  exists outs, map (fun rule => outcome_of rule r) rs = map Ok outs.
Proof.
  induction rs as [|rule rs [outs IH]]; [by exists []|].
  destruct (validate_uniform rule r) as (v & recs & Hrun).
  exists (v :: outs). cbn [map]. rewrite IH. f_equal.
  unfold outcome_of.
  by rewrite (Hrun unit _ (mkStore _ r tt) eq_refl).
Qed.

Lemma failures_fold (outs : list (bool * string)) (acc : list string) :
  fold_left (fun errors o => if negb (fst o) then errors ++ [snd o] else errors)
            outs acc
  = acc ++ map snd (List.filter (fun o => negb (fst o)) outs).
Proof.
  revert acc. induction outs as [|[ok msg] outs IH]; intros acc; cbn.
  - by rewrite app_nil_r.
  - rewrite IH. destruct ok; cbn; [done|]. by rewrite <- app_assoc.
Qed.

Lemma forallb_failures (outs : list (bool * string)) :
  forallb fst outs = true <-> List.filter (fun o => negb (fst o)) outs = [].
Proof.
  induction outs as [|[ok msg] outs IH]; cbn; [done|].
  destruct ok; cbn; [exact IH|done].
Qed.

Lemma run_registration_runs {Sink} `{!Handler Sink} (s : Store Sink)
  (outs : list (bool * string)) :
  map (fun rule => outcome_of rule (st_registration s)) (rules (st_self s))
  = map Ok outs ->
  runs run_registration s (aggregate outs)
       (opening_record (st_registration s)
        :: flat_map (fun rule => records_of rule (st_registration s))
                    (rules (st_self s))
        ++ [closing_record outs]).
Proof.
  intros Houts. unfold run_registration.
  set (r := st_registration s) in *.
  set (step := fun (errors : list string) (rule : IValidationRule) =>
         match outcome_of rule r with
         | Ok (ok, msg) => if negb ok then errors ++ [msg] else errors
         | Raise _ => errors
         end).
  eapply runs_bind_silent; [apply runs_registration|].
  apply runs_bind_log.
  eapply runs_bind_silent; [apply runs_self|].
  eapply (runs_bind _ _ _ (fold_left step (rules (st_self s)) [])).
  { rewrite !st_self_emits. apply runs_for_acc. intros b rule s' Hs'.
    destruct (validate_runs rule s') as ([ok msg] & Hv & Hrun).
    rewrite Hs', !st_registration_emits in Hv, Hrun. fold r in Hv, Hrun.
    eapply runs_bind_last; [exact Hrun|]. unfold step. rewrite Hv.
    destruct ok; apply runs_ret. }
  assert (fold_left step (rules (st_self s)) []
          = map snd (List.filter (fun o => negb (fst o)) outs)) as ->.
  { rewrite <- (app_nil_l (map snd _)), <- failures_fold.
    assert (forall acc,
      fold_left step (rules (st_self s)) acc
      = fold_left (fun errors o => if negb (fst o) then errors ++ [snd o] else errors)
                  outs acc) as Hfold; [|apply Hfold].
    revert outs Houts.
    induction (rules (st_self s)) as [|rule rs IH]; intros [|[ok msg] outs] Houts acc;
      try done.
    cbn in Houts. injection Houts as Hrule Hrest. cbn [fold_left].
    rewrite (IH _ Hrest). f_equal. unfold step. by rewrite Hrule. }
  unfold aggregate, closing_record.
  pose proof (forallb_failures outs) as Hall.
  destruct (List.filter _ outs) as [|o errs] eqn:Herrs.
  - rewrite (proj2 Hall eq_refl). cbn [map].
    apply runs_bind_log, runs_ret.
  - destruct (forallb fst outs); [by destruct Hall as [Hall _]; specialize (Hall eq_refl)|].
    cbn [map]. rewrite <- (length_map snd (o :: errs)). cbn [map].
    apply runs_bind_log, runs_ret.
Qed.

(** ** Consequences used by the main theorems *)

Lemma runs_fst {Sink} `{!Handler Sink} {A} (m : M Sink A) s v rs :
  runs m s v rs -> fst (m s) = Ok v.
Proof. unfold runs. by intros ->. Qed.

Lemma runs_snd {Sink} `{!Handler Sink} {A} (m : M Sink A) s v rs :
  runs m s v rs -> snd (m s) = emits rs s.
Proof. unfold runs. by intros ->. Qed.

(** Every rule opens with an informational record. *)
Lemma records_of_opening (rule : IValidationRule) (r : Registration) :
  exists msg rest, records_of rule r = mkLogRecord INFO msg :: rest.
Proof.
  unfold records_of.
  set (s := fresh (RegistrationService_init []) r).
  destruct rule as [max_sks| |]; cbn [validate].
  - pose proof (SksLimitRule_runs max_sks s) as Hrun. cbn zeta in Hrun.
    destruct (_ >? _); apply runs_snd in Hrun; rewrite Hrun, st_sink_emits_recording;
      by eexists _, _.
  - pose proof (PrerequisiteRule_runs s) as Hrun. cbn zeta in Hrun.
    destruct (missing_pairs _); apply runs_snd in Hrun;
      rewrite Hrun, st_sink_emits_recording; by eexists _, _.
  - pose proof (JadwalBentrokRule_runs s) as Hrun. cbn zeta in Hrun.
    destruct (first_pair _) as [[i j]|].
    + destruct Hrun as (a & b & _ & _ & Hrun). apply runs_snd in Hrun.
      rewrite Hrun, st_sink_emits_recording. by eexists _, _.
    + apply runs_snd in Hrun. rewrite Hrun, st_sink_emits_recording. by eexists _, _.
Qed.

(** ** The scenarios of the specification, evaluated *)

(** The demo: the credit rule passes, the prerequisite rule and the
    schedule rule fail, and the two messages come in rule order. *)
Example demo_result :
  fst (run_registration demo_store)
  = Ok (false,
        ["Prasyarat tidak terpenuhi: IFS300 butuh FIS201";
         "Jadwal bentrok antara MAT101 (09:00-11:00) dan FIS201 (10:30-12:00)"]).
Proof. vm_compute. reflexivity. Qed.

(** The same call with the two other sinks. *)
Example demo_result_disabled :
  fst (run_registration (mkStore (RegistrationService_init demo_rules) reg tt))
  = fst (run_registration demo_store).
Proof. vm_compute. reflexivity. Qed.

Example demo_result_warnings_only :
  fst (run_registration (H:=warnings_only) demo_store)
  = fst (run_registration demo_store).
Proof. vm_compute. reflexivity. Qed.

Example demo_log_levels :
  map levelname (st_sink (snd (run_registration demo_store)))
  = [INFO; INFO; INFO; WARNING; INFO; WARNING; ERROR].
Proof. vm_compute. reflexivity. Qed.

Example credit_cap_exceeded :
  fst (SksLimitRule_validate 5
         (fresh (RegistrationService_init [])
                (mkRegistration "Ani" [] [mat101; fis201])))
  = Ok (false, "Total SKS (7) melebihi batas maksimum (5).").
Proof. vm_compute. reflexivity. Qed.

Example prerequisite_missing :
  fst (PrerequisiteRule_validate
         (fresh (RegistrationService_init [])
                (mkRegistration "Ani" [] [mkCourse "A" "A" 2 ["X"] []])))
  = Ok (false, "Prasyarat tidak terpenuhi: A butuh X").
Proof. vm_compute. reflexivity. Qed.

Example different_days_pass :
  fst (JadwalBentrokRule_validate
         (fresh (RegistrationService_init [])
                (mkRegistration "Ani" []
                   [mat101;
                    mkCourse "FIS201" "Fisika I" 4 ["MAT101"]
                             [("Selasa", minutes 10 30, minutes 12 0)]])))
  = Ok (true, "Tidak ada jadwal bentrok.").
Proof. vm_compute. reflexivity. Qed.

Example format_time_examples :
  map format_time [0; 5; 65; 540; 1439; 6000; -1]
  = ["00:00"; "00:05"; "01:05"; "09:00"; "23:59"; "100:00"; "-1:59"].
Proof. vm_compute. reflexivity. Qed.

(** * The claims *)

(** C1. [run_registration] calls every rule of the service, in list order
    and whatever the earlier rules returned: its log is the opening record,
    then the records of each rule in turn (each rule logs at least its
    opening record), then the closing record.  With [outs] the outcomes
    of the individual rules, it returns the conjunction of their booleans
    together with the messages of exactly the failing rules in rule order
    when one fails, and the single success message otherwise; the
    message list has as many elements as there are failing rules, or one
    when all pass. *)
Theorem run_registration_aggregates {Sink} `{!Handler Sink} (s : Store Sink) :
  let r := st_registration s in
  let rs := rules (st_self s) in
  exists outs : list (bool * string),
    map (fun rule => outcome_of rule r) rs = map Ok outs /\
    snd (run_registration s)
    = emits (opening_record r
             :: flat_map (fun rule => records_of rule r) rs
             ++ [closing_record outs]) s /\
    Forall (fun rule => exists msg rest,
              records_of rule r = mkLogRecord INFO msg :: rest) rs /\
    let failing := List.filter (fun o => negb (fst o)) outs in
    fst (run_registration s)
    = Ok (forallb fst outs,
          if forallb fst outs then ["Validasi sukses."] else map snd failing) /\
    (forall passed messages,
        fst (run_registration s) = Ok (passed, messages) ->
        length messages = if passed then 1%nat else length failing).
Proof.
  intros r rs. destruct (outcomes_exist rs r) as [outs Houts].
  exists outs. pose proof (run_registration_runs s outs Houts) as Hrun.
  split; [done|]. split; [by apply runs_snd in Hrun|].
  split; [apply Forall_forall; intros rule _; apply records_of_opening|].
  cbn zeta. apply runs_fst in Hrun. rewrite Hrun. unfold aggregate.
  split; [by destruct (forallb fst outs)|].
  intros passed messages Heq.
  destruct (forallb fst outs); injection Heq as <- <-; [done|].
  by rewrite length_map.
Qed.

(** C2. [SksLimitRule.validate] passes exactly when the sum of the credit
    weights of the selected courses is at most [max_sks]; a sum equal to
    [max_sks] passes; with nothing selected the sum is 0 and the rule
    passes for every cap that is not negative; the failure message
    reports the total and the cap. *)
Theorem SksLimitRule_validate_spec {Sink} `{!Handler Sink} (max_sks : Z)
  (s : Store Sink) :
  let r := st_registration s in
  let total := total_credits r in
  fst (SksLimitRule_validate max_sks s)
  = Ok (bool_decide (total <= max_sks),
        if bool_decide (total <= max_sks) then "SKS OK."
        else "Total SKS (" +:+ str_int total +:+ ") melebihi batas maksimum ("
             +:+ str_int max_sks +:+ ").") /\
  fst (SksLimitRule_validate total s) = Ok (true, "SKS OK.") /\
  (selected_courses r = [] -> total = 0) /\
  (selected_courses r = [] -> 0 <= max_sks ->
   fst (SksLimitRule_validate max_sks s) = Ok (true, "SKS OK.")).
Proof.
  intros r total.
  assert (forall cap, fst (SksLimitRule_validate cap s)
    = Ok (bool_decide (total <= cap),
          if bool_decide (total <= cap) then "SKS OK."
          else credit_message total cap)) as Hcap.
  { intros cap. pose proof (SksLimitRule_runs cap s) as Hrun. cbn zeta in Hrun.
    fold r in Hrun. fold total in Hrun.
    destruct (total >? cap) eqn:Hcmp; apply runs_fst in Hrun; rewrite Hrun.
    - apply Z.gtb_lt in Hcmp. by rewrite bool_decide_eq_false_2 by lia.
    - rewrite Z.gtb_ltb, Z.ltb_ge in Hcmp. by rewrite bool_decide_eq_true_2 by lia. }
  assert (selected_courses r = [] -> total = 0) as Hempty.
  { unfold total, total_credits. by intros ->. }
  split; [apply Hcap|]. split.
  { rewrite Hcap. by rewrite bool_decide_eq_true_2 by lia. }
  split; [done|]. intros Hnil Hpos. rewrite Hcap.
  by rewrite bool_decide_eq_true_2 by (rewrite Hempty by done; lia).
Qed.

Lemma SksLimitRule_validate_spec_witness :
  fst (SksLimitRule_validate 24
         (mkStore (RegistrationService_init demo_rules)
                  (mkRegistration "Ani" [] []) (@nil LogRecord)))
  = Ok (true, "SKS OK.").
Proof.
  apply (SksLimitRule_validate_spec 24
           (mkStore (RegistrationService_init demo_rules)
                    (mkRegistration "Ani" [] []) (@nil LogRecord))).
  - reflexivity.
  - lia.
Defined.

Lemma elem_of_missing_pairs (r : Registration) (cd p : string) :
  (cd, p) ∈ missing_pairs r <->
  exists c, c ∈ selected_courses r /\ code c = cd /\
            p ∈ prerequisites c /\ p ∉ completed_courses r.
Proof.
  unfold missing_pairs. rewrite list_elem_of_In, in_flat_map. split.
  - intros (c & Hc & Hin). apply list_elem_of_In, list_elem_of_fmap in Hin.
    destruct Hin as (q & [= -> ->] & Hq). apply list_elem_of_filter in Hq as [Hq1 Hq2].
    exists c. by rewrite list_elem_of_In.
  - intros (c & Hc & <- & Hp & Hn). exists c. split; [by apply list_elem_of_In|].
    apply list_elem_of_In, list_elem_of_fmap. exists p. split; [done|].
    by apply list_elem_of_filter.
Qed.

Lemma missing_pairs_nil (r : Registration) :
  missing_pairs r = [] <->
  Forall (fun c => Forall (fun p => p ∈ completed_courses r) (prerequisites c))
         (selected_courses r).
Proof.
  split.
  - intros Hnil. apply Forall_forall. intros c Hc. apply Forall_forall. intros p Hp.
    destruct (decide (p ∈ completed_courses r)) as [|Hn]; [done|].
    assert ((code c, p) ∈ missing_pairs r) as Hin.
    { apply elem_of_missing_pairs. by exists c. }
    rewrite Hnil in Hin. by apply elem_of_nil in Hin.
  - intros Hall. destruct (missing_pairs r) as [|[cd p] rest] eqn:Hm; [done|].
    assert ((cd, p) ∈ missing_pairs r) as Hin by (rewrite Hm; left).
    apply elem_of_missing_pairs in Hin as (c & Hc & _ & Hp & Hn).
    rewrite Forall_forall in Hall. specialize (Hall c Hc).
    rewrite Forall_forall in Hall. by destruct (Hn (Hall p Hp)).
Qed.

(** C3. [PrerequisiteRule.validate] passes exactly when every prerequisite
    of every selected course is among the completed courses.  When it
    fails, its message lists every missing pair, in course order then
    prerequisite order: a pair (course code, prerequisite) is listed
    exactly when the prerequisite belongs to a selected course with that
    code and is not completed.  So a course without prerequisites adds
    nothing, and a prerequisite that is only selected, not completed, is
    listed. *)
Theorem PrerequisiteRule_validate_spec {Sink} `{!Handler Sink} (s : Store Sink) :
  let r := st_registration s in
  let satisfied :=
    Forall (fun c => Forall (fun p => p ∈ completed_courses r) (prerequisites c))
           (selected_courses r) in
  fst (PrerequisiteRule_validate s)
  = Ok (bool_decide satisfied,
        if bool_decide satisfied then "Prasyarat OK."
        else "Prasyarat tidak terpenuhi: "
             +:+ join ", " (map (fun '(c, p) => c +:+ " butuh " +:+ p)
                                (missing_pairs r))) /\
  (forall cd p,
      (cd, p) ∈ missing_pairs r <->
      exists c, c ∈ selected_courses r /\ code c = cd /\
                p ∈ prerequisites c /\ p ∉ completed_courses r) /\
  (forall student completed before c after,
      prerequisites c = [] ->
      missing_pairs (mkRegistration student completed (before ++ c :: after))
      = missing_pairs (mkRegistration student completed (before ++ after))) /\
  (forall c c', c ∈ selected_courses r -> c' ∈ selected_courses r ->
                code c' ∈ prerequisites c -> code c' ∉ completed_courses r ->
                (code c, code c') ∈ missing_pairs r /\
                fst (PrerequisiteRule_validate s)
                = Ok (false, prerequisite_message (missing_pairs r))).
Proof.
  intros r satisfied.
  pose proof (PrerequisiteRule_runs s) as Hrun. cbn zeta in Hrun. fold r in Hrun.
  pose proof (missing_pairs_nil r) as Hnil. fold satisfied in Hnil.
  assert (missing_pairs r <> [] ->
          fst (PrerequisiteRule_validate s)
          = Ok (false, prerequisite_message (missing_pairs r))) as Hfail.
  { intros Hne. destruct (missing_pairs r); [done|]. by apply runs_fst in Hrun. }
  split; [|split; [|split]].
  - destruct (missing_pairs r) as [|m ms] eqn:Hm.
    + apply runs_fst in Hrun. rewrite Hrun.
      by rewrite bool_decide_eq_true_2 by by apply Hnil.
    + apply runs_fst in Hrun. rewrite Hrun.
      rewrite bool_decide_eq_false_2; [done|]. intros Hs. by apply Hnil in Hs.
  - apply elem_of_missing_pairs.
  - intros student completed before c after Hpre. unfold missing_pairs. cbn.
    rewrite !flat_map_app. cbn. by rewrite Hpre.
  - intros c c' Hc Hc' Hp Hn.
    assert ((code c, code c') ∈ missing_pairs r) as Hin.
    { apply elem_of_missing_pairs. by exists c. }
    split; [done|]. apply Hfail. intros Hm. rewrite Hm in Hin.
    by apply elem_of_nil in Hin.
Qed.

Lemma overlap_sym (a b : Entry) : overlap a b -> overlap b a.
Proof. unfold overlap. intros (-> & ? & ?). done. Qed.

Lemma first_conflict_exists (entries : list Entry) :
  (exists i j, conflict_at entries i j) ->
  exists i j, first_conflict_at entries i j.
Proof.
  intros (i & j & Hc). destruct (first_pair entries) as [[i0 j0]|] eqn:Hp.
  - exists i0, j0. by apply first_pair_Some.
  - rewrite first_pair_None in Hp. by destruct (Hp i j).
Qed.

Lemma JadwalBentrokRule_fails {Sink} `{!Handler Sink} (s : Store Sink)
  (i j : nat) (a b : Entry) :
  let entries := flattened (st_registration s) in
  first_conflict_at entries i j ->
  entries !! i = Some a -> entries !! j = Some b ->
  runs JadwalBentrokRule_validate s (false, conflict_message a b)
       [mkLogRecord INFO "Memeriksa bentrok jadwal...";
        mkLogRecord WARNING (conflict_message a b)].
Proof.
  intros entries Hfirst Ha Hb.
  pose proof (JadwalBentrokRule_runs s) as Hrun. cbn zeta in Hrun.
  apply first_pair_Some in Hfirst. fold entries in Hrun. rewrite Hfirst in Hrun.
  destruct Hrun as (a' & b' & Ha' & Hb' & Hrun). by simplify_eq.
Qed.

Lemma JadwalBentrokRule_passes {Sink} `{!Handler Sink} (s : Store Sink) :
  (forall i j, ~ conflict_at (flattened (st_registration s)) i j) ->
  runs JadwalBentrokRule_validate s (true, "Tidak ada jadwal bentrok.")
       [mkLogRecord INFO "Memeriksa bentrok jadwal..."].
Proof.
  intros Hnone. pose proof (JadwalBentrokRule_runs s) as Hrun. cbn zeta in Hrun.
  apply first_pair_None in Hnone. by rewrite Hnone in Hrun.
Qed.

(** C4. [JadwalBentrokRule.validate] passes exactly when no two entries
    at different positions of the flattened schedule list are on the same
    day and overlap as half-open intervals.  Two entries with
    [end_a = start_b] never overlap, and a registration whose flattened
    list consists of two such entries passes. *)
Theorem JadwalBentrokRule_validate_spec {Sink} `{!Handler Sink} (s : Store Sink) :
  let entries := flattened (st_registration s) in
  (exists passed msg,
      fst (JadwalBentrokRule_validate s) = Ok (passed, msg) /\
      (passed = true <->
       ~ exists i j a b, i <> j /\ entries !! i = Some a /\
                         entries !! j = Some b /\
                         day_of a = day_of b /\
                         start_of a < end_of b /\ start_of b < end_of a)) /\
  (forall a b, end_of a = start_of b -> ~ overlap a b) /\
  (forall a b, entries = [a; b] -> end_of a = start_of b ->
               fst (JadwalBentrokRule_validate s)
               = Ok (true, "Tidak ada jadwal bentrok.")).
Proof.
  intros entries.
  assert ((exists i j a b, i <> j /\ entries !! i = Some a /\
                           entries !! j = Some b /\ overlap a b)
          <-> exists i j, conflict_at entries i j) as Hpairs.
  { split.
    - intros (i & j & a & b & Hne & Ha & Hb & Hab).
      destruct (decide (i < j)%nat).
      + exists i, j. split; [done|]. by exists a, b.
      + exists j, i. split; [lia|]. exists b, a. by auto using overlap_sym.
    - intros (i & j & Hij & a & b & Ha & Hb & Hab). exists i, j, a, b.
      split; [lia|done]. }
  unfold overlap in Hpairs at 1.
  assert (forall a b : Entry, end_of a = start_of b -> ~ overlap a b) as Hadj.
  { intros a b Heq (_ & _ & Hlt). lia. }
  split; [|split; [done|]].
  - destruct (first_pair entries) as [[i j]|] eqn:Hp.
    + pose proof Hp as Hfirst. apply first_pair_Some in Hfirst.
      pose proof (proj1 Hfirst) as Hc. pose proof (conflict_at_lt _ _ _ Hc) as Hlt.
      destruct (lookup_lt_is_Some_2 entries i ltac:(lia)) as [a Ha].
      destruct (lookup_lt_is_Some_2 entries j ltac:(lia)) as [b Hb].
      exists false, (conflict_message a b). split.
      * eapply runs_fst. by apply JadwalBentrokRule_fails with (i := i) (j := j).
      * split; [done|]. intros Hno. destruct Hno. apply Hpairs. by exists i, j.
    + exists true, "Tidak ada jadwal bentrok.". rewrite first_pair_None in Hp. split.
      * eapply runs_fst. by apply JadwalBentrokRule_passes.
      * split; [|done]. intros _ Hex. apply Hpairs in Hex as (i & j & Hc).
        by destruct (Hp i j).
  - intros a b Hentries Heq. eapply runs_fst. apply JadwalBentrokRule_passes.
    fold entries. rewrite Hentries. intros i j (Hij & x & y & Hx & Hy & Hxy).
    destruct i as [|[|i]], j as [|[|j]]; try done; try lia.
    cbn in Hx, Hy. simplify_eq. by eapply Hadj.
Qed.

(** C5. When some pair of entries conflicts, [JadwalBentrokRule.validate]
    fails on the first overlapping pair of the scan (outer position [i]
    ascending, inner position [j] from [i + 1] ascending, over the
    flattened list): its message names the two course codes and the
    start and end times of that pair, and it logs that one warning and
    nothing after it. *)
Theorem JadwalBentrokRule_first_conflict {Sink} `{!Handler Sink}
  (s : Store Sink) :
  let entries := flattened (st_registration s) in
  (exists i j, conflict_at entries i j) ->
  exists i j a b,
    first_conflict_at entries i j /\
    entries !! i = Some a /\ entries !! j = Some b /\
    let msg := "Jadwal bentrok antara " +:+ course_of a +:+ " ("
               +:+ format_time (start_of a) +:+ "-" +:+ format_time (end_of a)
               +:+ ") dan " +:+ course_of b +:+ " ("
               +:+ format_time (start_of b) +:+ "-" +:+ format_time (end_of b)
               +:+ ")" in
    JadwalBentrokRule_validate s
    = (Ok (false, msg),
       emits [mkLogRecord INFO "Memeriksa bentrok jadwal...";
              mkLogRecord WARNING msg] s).
Proof.
  intros entries Hex. apply first_conflict_exists in Hex as (i & j & Hfirst).
  pose proof (conflict_at_lt _ _ _ (proj1 Hfirst)) as Hlt.
  destruct (lookup_lt_is_Some_2 entries i ltac:(lia)) as [a Ha].
  destruct (lookup_lt_is_Some_2 entries j ltac:(lia)) as [b Hb].
  exists i, j, a, b. repeat split; try done; try apply Hfirst.
  by apply JadwalBentrokRule_fails with (i := i) (j := j).
Qed.

Lemma JadwalBentrokRule_first_conflict_witness :
  exists i j a b,
    first_conflict_at (flattened reg) i j /\
    flattened reg !! i = Some a /\ flattened reg !! j = Some b /\
    JadwalBentrokRule_validate demo_store
    = (Ok (false, conflict_message a b),
       emits [mkLogRecord INFO "Memeriksa bentrok jadwal...";
              mkLogRecord WARNING (conflict_message a b)] demo_store).
Proof.
  apply (JadwalBentrokRule_first_conflict demo_store).
  exists 0%nat, 1%nat. split; [lia|].
  eexists _, _. split; [reflexivity|]. split; [reflexivity|].
  unfold overlap. vm_compute. repeat split; reflexivity.
Defined.

Lemma run_registration_result {Sink} `{!Handler Sink} (s : Store Sink) :
  exists outs,
    map (fun rule => outcome_of rule (st_registration s)) (rules (st_self s))
    = map Ok outs /\
    runs run_registration s (aggregate outs)
         (opening_record (st_registration s)
          :: flat_map (fun rule => records_of rule (st_registration s))
                      (rules (st_self s))
          ++ [closing_record outs]).
Proof.
  destruct (outcomes_exist (rules (st_self s)) (st_registration s)) as [outs Houts].
  exists outs. split; [done|]. by apply run_registration_runs.
Qed.

Lemma map_Ok_inj {A} (xs ys : list A) :
  map (@Ok A) xs = map Ok ys -> xs = ys.
Proof.
  revert ys. induction xs as [|x xs IH]; intros [|y ys]; try done.
  cbn. intros [= -> Hrest]. f_equal. by apply IH.
Qed.

(** C6. The value [run_registration] returns is a function of the
    registration and of the service's rules alone: whatever sink stands
    behind the logger (one that keeps records, one that drops them, any
    other) and whatever that sink already holds, the same registration
    and rules give the same result; and a second call, made on the store
    the first call left, returns what the first returned. *)
Theorem run_registration_deterministic
  (Sink1 Sink2 : Type) (H1 : Handler Sink1) (H2 : Handler Sink2)
  (svc : RegistrationService) (r : Registration) (k1 : Sink1) (k2 : Sink2) :
  fst (run_registration (mkStore svc r k1))
  = fst (run_registration (mkStore svc r k2)) /\
  fst (run_registration (snd (run_registration (mkStore svc r k1))))
  = fst (run_registration (mkStore svc r k1)).
Proof.
  destruct (run_registration_result (mkStore svc r k1)) as (o1 & Ho1 & Hr1).
  destruct (run_registration_result (mkStore svc r k2)) as (o2 & Ho2 & Hr2).
  cbn [st_registration st_self] in *.
  assert (o1 = o2) as <- by (apply map_Ok_inj; congruence).
  split.
  - apply runs_fst in Hr1, Hr2. congruence.
  - rewrite (runs_snd _ _ _ _ Hr1).
    destruct (run_registration_result
                (emits (opening_record r
                        :: flat_map (fun rule => records_of rule r) (rules svc)
                        ++ [closing_record o1]) (mkStore svc r k1)))
      as (o3 & Ho3 & Hr3).
    rewrite st_registration_emits, st_self_emits in Ho3.
    cbn [st_registration st_self] in Ho3.
    assert (o1 = o3) as <- by (apply map_Ok_inj; congruence).
    apply runs_fst in Hr1, Hr3. congruence.
Qed.

(** C7. A service built with no rules accepts every registration with the
    single success message; and a service built with any list of rules,
    in any order and with repetitions, returns a result for every
    registration without raising. *)
Theorem run_registration_empty_rules {Sink} `{!Handler Sink}
  (r : Registration) (k : Sink) :
  fst (run_registration (mkStore (RegistrationService_init []) r k))
  = Ok (true, ["Validasi sukses."]) /\
  forall rs : list IValidationRule,
    exists passed messages,
      fst (run_registration (mkStore (RegistrationService_init rs) r k))
      = Ok (passed, messages).
Proof.
  split.
  - reflexivity.
  - intros rs.
    destruct (run_registration_result (mkStore (RegistrationService_init rs) r k))
      as (outs & _ & Hrun).
    apply runs_fst in Hrun. rewrite Hrun. destruct (aggregate outs). by eexists _, _.
Qed.

(** C8. Neither [run_registration] nor any rule's [validate] changes the
    registration (student, completed courses, selected courses and their
    courses) or the service (its rule list and each rule's
    configuration): the store after the call differs from the store
    before at most in the sink.  A rule keeps nothing from a call: called
    again on the store it left, it returns the same. *)
Theorem run_registration_frame {Sink} `{!Handler Sink} (s : Store Sink) :
  (st_registration (snd (run_registration s)) = st_registration s /\
   st_self (snd (run_registration s)) = st_self s) /\
  forall rule : IValidationRule,
    st_registration (snd (validate rule s)) = st_registration s /\
    st_self (snd (validate rule s)) = st_self s /\
    fst (validate rule (snd (validate rule s))) = fst (validate rule s).
Proof.
  split.
  - destruct (run_registration_result s) as (outs & _ & Hrun).
    rewrite (runs_snd _ _ _ _ Hrun).
    by rewrite st_registration_emits, st_self_emits.
  - intros rule. destruct (validate_runs rule s) as (v & Hv & Hrun).
    rewrite (runs_snd _ _ _ _ Hrun), (runs_fst _ _ _ _ Hrun).
    rewrite st_registration_emits, st_self_emits. repeat split.
    destruct (validate_runs rule (emits (records_of rule (st_registration s)) s))
      as (v' & Hv' & Hrun').
    rewrite st_registration_emits in Hv'. rewrite (runs_fst _ _ _ _ Hrun').
    congruence.
Qed.

Lemma first_conflict_at_head (a b : Entry) (rest : list Entry) :
  overlap a b -> first_conflict_at (a :: b :: rest) 0 1.
Proof.
  intros Hab. split.
  - split; [lia|]. by exists a, b.
  - intros i' j' [Hlt|[-> Hlt]] [Hij _]; lia.
Qed.

(** Within a day, [format_time] yields five characters: two for the
    hour, a colon, two for the minute. *)
Lemma format_time_length (t : Z) :
  0 <= t < 1440 -> String.length (format_time t) = 5%nat.
Proof.
  intros Ht.
  assert (forallb (fun n => Nat.eqb (String.length (format_time (Z.of_nat n))) 5)
                  (seq 0 1440) = true) as Hall by (vm_compute; reflexivity).
  rewrite forallb_forall in Hall.
  specialize (Hall (Z.to_nat t)). rewrite Z2Nat.id in Hall by lia.
  apply Nat.eqb_eq, Hall, in_seq. lia.
Qed.

(** C9. With MAT101 on a day from 09:00 to 11:00 and FIS201 on the same
    day from 10:30 to 12:00 selected together, in either order,
    [JadwalBentrokRule.validate] fails, and its message contains both
    course codes and the times 09:00-11:00 and 10:30-12:00: minutes of the
    day are rendered as two-digit hour, colon, two-digit minute. *)
Theorem JadwalBentrokRule_scenario {Sink} `{!Handler Sink}
  (svc : RegistrationService) (k : Sink) (student : string)
  (completed : list string) (day name1 name2 : string) (sks1 sks2 : Z)
  (pre1 pre2 : list string) :
  let mat := mkCourse "MAT101" name1 sks1 pre1
                      [(day, minutes 9 0, minutes 11 0)] in
  let fis := mkCourse "FIS201" name2 sks2 pre2
                      [(day, minutes 10 30, minutes 12 0)] in
  let msg1 := "Jadwal bentrok antara MAT101 (09:00-11:00) dan FIS201 (10:30-12:00)" in
  let msg2 := "Jadwal bentrok antara FIS201 (10:30-12:00) dan MAT101 (09:00-11:00)" in
  fst (JadwalBentrokRule_validate
         (mkStore svc (mkRegistration student completed [mat; fis]) k))
  = Ok (false, msg1) /\
  fst (JadwalBentrokRule_validate
         (mkStore svc (mkRegistration student completed [fis; mat]) k))
  = Ok (false, msg2) /\
  Forall (fun sub => contains sub msg1 = true /\ contains sub msg2 = true)
         ["MAT101"; "FIS201"; "09:00-11:00"; "10:30-12:00"] /\
  format_time (minutes 9 0) = "09:00" /\ format_time (minutes 11 0) = "11:00" /\
  format_time (minutes 10 30) = "10:30" /\ format_time (minutes 12 0) = "12:00" /\
  (forall t, 0 <= t < 1440 -> String.length (format_time t) = 5%nat).
Proof.
  intros mat fis msg1 msg2.
  split; [|split; [|split]].
  - eapply runs_fst.
    apply (JadwalBentrokRule_fails _ 0 1 (tag mat (day, minutes 9 0, minutes 11 0))
             (tag fis (day, minutes 10 30, minutes 12 0))); [|done..].
    apply first_conflict_at_head. unfold overlap. cbn. split; [done|]. vm_compute. done.
  - eapply runs_fst.
    apply (JadwalBentrokRule_fails _ 0 1 (tag fis (day, minutes 10 30, minutes 12 0))
             (tag mat (day, minutes 9 0, minutes 11 0))); [|done..].
    apply first_conflict_at_head. unfold overlap. cbn. split; [done|]. vm_compute. done.
  - repeat constructor.
  - repeat split; try reflexivity. apply format_time_length.
Qed.

Lemma entries_of_app (l1 l2 : list Course) :
  entries_of (l1 ++ l2) = entries_of l1 ++ entries_of l2.
Proof. unfold entries_of. apply flat_map_app. Qed.

Lemma entries_of_cons (c : Course) (rest : list Course) :
  entries_of (c :: rest) = map (tag c) (schedule c) ++ entries_of rest.
Proof. done. Qed.

(** The positions, in the flattened list, of two entries of one course. *)
Lemma own_entries_lookup (c : Course) (before after : list Course)
  (sa sb sc : list ScheduleEntry) (x y : ScheduleEntry) :
  schedule c = sa ++ x :: sb ++ y :: sc ->
  let entries := entries_of (before ++ c :: after) in
  let i := (length (entries_of before) + length sa)%nat in
  let j := (i + 1 + length sb)%nat in
  entries !! i = Some (tag c x) /\ entries !! j = Some (tag c y) /\ (i < j)%nat.
Proof.
  intros Hsch. cbn zeta.
  rewrite entries_of_app, entries_of_cons, app_assoc, <- (app_assoc (entries_of before)).
  rewrite Hsch, map_app, map_cons, map_app, map_cons.
  assert (length (map (tag c) sa) = length sa) as Hla by apply length_map.
  assert (length (map (tag c) sb) = length sb) as Hlb by apply length_map.
  revert Hla Hlb.
  generalize (map (tag c) sa) (map (tag c) sb) (map (tag c) sc)
             (entries_of before) (entries_of after).
  intros A B C E F Hla Hlb. rewrite <- Hla, <- Hlb.
  repeat split; [| |lia].
  - rewrite lookup_app_r by lia. rewrite <- app_assoc. cbn [app].
    apply list_lookup_middle. lia.
  - rewrite lookup_app_r by lia. rewrite <- !app_assoc. cbn [app].
    rewrite lookup_app_r by lia.
    replace (_ - _ - _)%nat with (S (length B)) by lia.
    cbn [lookup list_lookup]. rewrite <- app_assoc. cbn [app].
    by apply list_lookup_middle.
Qed.

(** C10, as stated, fails.  MAT101 and FIS201 overlap on Senin and come
    first in the scan; IFS300, selected after them, has two overlapping
    Selasa intervals of its own.  The rule fails, but its message is the
    one for MAT101 and FIS201 and does not contain the code IFS300. *)
Lemma self_conflict_not_always_named :
  let own := mkCourse "IFS300" "Ilmu Komputer Lanjut" 3 []
                      [("Selasa", minutes 9 0, minutes 11 0);
                       ("Selasa", minutes 10 0, minutes 12 0)] in
  let r := mkRegistration "Ani" [] [mat101; fis201; own] in
  own ∈ selected_courses r /\
  (exists x y, schedule own = [x; y] /\ overlap (tag own x) (tag own y)) /\
  ~ (forall c x y sa sb sc,
        c ∈ selected_courses r ->
        schedule c = sa ++ x :: sb ++ y :: sc ->
        overlap (tag c x) (tag c y) ->
        exists msg,
          fst (JadwalBentrokRule_validate (fresh (RegistrationService_init []) r))
          = Ok (false, msg) /\
          contains (code c) msg = true).
Proof.
  intros own r. split; [|split].
  - unfold r. cbn. do 2 right. left.
  - eexists _, _. split; [reflexivity|]. unfold overlap. vm_compute.
    repeat split; reflexivity.
  - intros Hall.
    destruct (Hall own ("Selasa", minutes 9 0, minutes 11 0)
                   ("Selasa", minutes 10 0, minutes 12 0) [] [] []) as (msg & Hres & Hin).
    + unfold r. cbn. do 2 right. left.
    + reflexivity.
    + unfold overlap. vm_compute. repeat split; reflexivity.
    + vm_compute in Hres. injection Hres as <-. vm_compute in Hin. discriminate.
Qed.

(** C10, amended.  When a selected course has two intervals of its own
    that overlap on the same day, [JadwalBentrokRule.validate] fails; and
    when those two are the first overlapping pair of the scan, the message
    names that course's code for both members of the pair. *)
Theorem JadwalBentrokRule_self_conflict {Sink} `{!Handler Sink}
  (s : Store Sink) (c : Course) (before after : list Course)
  (sa sb sc : list ScheduleEntry) (x y : ScheduleEntry) :
  selected_courses (st_registration s) = before ++ c :: after ->
  schedule c = sa ++ x :: sb ++ y :: sc ->
  overlap (tag c x) (tag c y) ->
  let entries := flattened (st_registration s) in
  let i := (length (entries_of before) + length sa)%nat in
  let j := (i + 1 + length sb)%nat in
  (exists msg, fst (JadwalBentrokRule_validate s) = Ok (false, msg)) /\
  (first_conflict_at entries i j ->
   fst (JadwalBentrokRule_validate s)
   = Ok (false,
         "Jadwal bentrok antara " +:+ code c +:+ " ("
         +:+ format_time (x.1.2) +:+ "-" +:+ format_time (x.2)
         +:+ ") dan " +:+ code c +:+ " ("
         +:+ format_time (y.1.2) +:+ "-" +:+ format_time (y.2) +:+ ")")).
Proof.
  intros Hsel Hsch Hxy entries i j.
  destruct (own_entries_lookup c before after sa sb sc x y Hsch) as (Hi & Hj & Hij).
  fold i in Hi, Hj, Hij. fold j in Hj, Hij.
  assert (entries = entries_of (before ++ c :: after)) as Hentries
    by (unfold entries, flattened; by rewrite Hsel).
  rewrite <- Hentries in Hi, Hj.
  split.
  - destruct (first_conflict_exists entries) as (i0 & j0 & Hfirst).
    { exists i, j. split; [done|]. by exists (tag c x), (tag c y). }
    pose proof (conflict_at_lt _ _ _ (proj1 Hfirst)) as Hlt.
    destruct (lookup_lt_is_Some_2 entries i0 ltac:(lia)) as [a Ha].
    destruct (lookup_lt_is_Some_2 entries j0 ltac:(lia)) as [b Hb].
    exists (conflict_message a b). eapply runs_fst.
    by apply JadwalBentrokRule_fails with (i := i0) (j := j0).
  - intros Hfirst. eapply runs_fst.
    by apply (JadwalBentrokRule_fails s i j (tag c x) (tag c y)).
Qed.

Lemma JadwalBentrokRule_self_conflict_witness :
  let own := mkCourse "IFS300" "Ilmu Komputer Lanjut" 3 []
                      [("Selasa", minutes 9 0, minutes 11 0);
                       ("Selasa", minutes 10 0, minutes 12 0)] in
  let s := fresh (RegistrationService_init [JadwalBentrokRule])
                 (mkRegistration "Ani" [] [mat101; own]) in
  fst (JadwalBentrokRule_validate s)
  = Ok (false, "Jadwal bentrok antara IFS300 (09:00-11:00) dan IFS300 (10:00-12:00)").
Proof.
  intros own s.
  apply (JadwalBentrokRule_self_conflict s own [mat101] [] [] [] []
           ("Selasa", minutes 9 0, minutes 11 0)
           ("Selasa", minutes 10 0, minutes 12 0)).
  - reflexivity.
  - reflexivity.
  - unfold overlap. vm_compute. repeat split; reflexivity.
  - apply first_pair_Some. vm_compute. reflexivity.
Defined.

(** * Further properties *)

(** ** Rendering of times *)

Lemma string_length_app (s1 s2 : string) :
  String.length (s1 +:+ s2) = (String.length s1 + String.length s2)%nat.
Proof. induction s1 as [|c s1 IH]; simpl; [done|]. by f_equal. Qed.

Lemma string_app_inj_length (s1 s2 r1 r2 : string) :
  String.length s1 = String.length s2 ->
  s1 +:+ r1 = s2 +:+ r2 -> s1 = s2 /\ r1 = r2.
Proof.
  revert s2. induction s1 as [|c s1 IH]; intros [|d s2]; cbn; try done.
  intros [= Hlen] [= -> Heq]. destruct (IH s2 Hlen Heq) as [-> ->]. done.
Qed.

Lemma pretty_N_go_length (x : N) (s : string) :
  (String.length s <= String.length (pretty_N_go x s))%nat.
Proof.
  revert s. induction (N.lt_wf_0 x) as [x _ IH]; intros s.
  assert (x = 0 \/ 0 < x)%N as [->|Hx] by lia; [by rewrite pretty_N_go_0|].
  rewrite pretty_N_go_step by done.
  etrans; [|apply IH; by apply N.div_lt]. cbn. lia.
Qed.

Lemma pretty_N_go_length_pos (x : N) (s : string) :
  (0 < x)%N -> (String.length s < String.length (pretty_N_go x s))%nat.
Proof.
  intros Hx. rewrite pretty_N_go_step by done.
  eapply Nat.lt_le_trans; [|apply pretty_N_go_length]. cbn. lia.
Qed.

Lemma pretty_N_go_length_two (x : N) (s : string) :
  (10 <= x)%N -> (String.length s + 2 <= String.length (pretty_N_go x s))%nat.
Proof.
  intros Hx. rewrite pretty_N_go_step by lia.
  assert (0 < x `div` 10)%N as Hd by (apply N.div_str_pos; lia).
  pose proof (pretty_N_go_length_pos _ (String (pretty_N_char (x `mod` 10)) s) Hd).
  cbn in *. lia.
Qed.

(** A positive number is never printed with a leading zero. *)
Lemma pretty_N_go_leading (x : N) (s rest : string) :
  (0 < x)%N -> pretty_N_go x s <> String "0" rest.
Proof.
  revert s. induction (N.lt_wf_0 x) as [x _ IH]; intros s Hx.
  rewrite pretty_N_go_step by done.
  assert (x < 10 \/ 10 <= x)%N as [Hlt|Hge] by lia.
  - rewrite N.div_small, pretty_N_go_0, N.mod_small by done.
    intros [= Hchar _]. apply (pretty_N_char_inj x 0) in Hchar; lia.
  - apply IH; [by apply N.div_lt|]. apply N.div_str_pos. lia.
Qed.

Lemma pretty_Z_pos (p : positive) : pretty (Zpos p) = pretty_N_go (Npos p) "".
Proof. done. Qed.

Lemma format_02d_neg (n : Z) : n < 0 -> format_02d n = "-" +:+ pretty (- n).
Proof.
  intros Hn. unfold format_02d. rewrite (proj2 (Z.ltb_lt n 0) Hn).
  replace (Z.abs n) with (- n) by lia.
  destruct n as [|p|p]; try lia. change (- Z.neg p) with (Z.pos p).
  rewrite !pretty_Z_pos.
  pose proof (pretty_N_go_length_pos (Npos p) "" ltac:(lia)) as Hlen.
  unfold zero_pad. cbn [String.length] in *.
  replace (2 - 1 - _)%nat with 0%nat by lia. done.
Qed.

Lemma format_02d_small (n : Z) :
  0 <= n < 10 -> format_02d n = String "0" (pretty n).
Proof.
  intros Hn.
  assert (forallb (fun k => String.eqb (format_02d (Z.of_nat k))
                                      (String "0" (pretty (Z.of_nat k))))
                  (seq 0 10) = true) as Hall by (vm_compute; reflexivity).
  rewrite forallb_forall in Hall.
  specialize (Hall (Z.to_nat n)). rewrite Z2Nat.id in Hall by lia.
  apply String.eqb_eq, Hall, in_seq. lia.
Qed.

Lemma format_02d_large (n : Z) : 10 <= n -> format_02d n = pretty n.
Proof.
  intros Hn. unfold format_02d. rewrite (proj2 (Z.ltb_ge n 0)) by lia.
  replace (Z.abs n) with n by lia.
  destruct n as [|p|p]; try lia. rewrite pretty_Z_pos.
  pose proof (pretty_N_go_length_two (Npos p) "" ltac:(lia)) as Hlen.
  unfold zero_pad. cbn [String.length] in *.
  replace (2 - 0 - _)%nat with 0%nat by lia. done.
Qed.

Lemma format_02d_inj (a b : Z) : format_02d a = format_02d b -> a = b.
Proof.
  assert (forall n, 0 <= n -> forall rest, pretty n <> "-" +:+ rest) as Hdash.
  { intros [|p|p] Hn rest; try lia; [done|]. rewrite pretty_Z_pos.
    by apply pretty_N_go_ne_dash. }
  assert (forall n, 0 < n -> forall rest, pretty n <> String "0" rest) as Hzero.
  { intros [|p|p] Hn rest; try lia. rewrite pretty_Z_pos.
    by apply pretty_N_go_leading. }
  assert (a < 0 \/ 0 <= a < 10 \/ 10 <= a) as Ha by lia.
  assert (b < 0 \/ 0 <= b < 10 \/ 10 <= b) as Hb by lia.
  destruct Ha as [Ha|[Ha|Ha]], Hb as [Hb|[Hb|Hb]];
    rewrite ?(format_02d_neg a), ?(format_02d_neg b),
            ?(format_02d_small a), ?(format_02d_small b),
            ?(format_02d_large a), ?(format_02d_large b) by done;
    intros Heq.
  - injection Heq as Heq. apply pretty_Z_inj in Heq. lia.
  - done.
  - symmetry in Heq. by apply Hdash in Heq; [|lia].
  - done.
  - injection Heq as Heq. by apply pretty_Z_inj in Heq.
  - symmetry in Heq. by apply Hzero in Heq; [|lia].
  - by apply Hdash in Heq; [|lia].
  - by apply Hzero in Heq; [|lia].
  - by apply pretty_Z_inj in Heq.
Qed.

Lemma format_02d_minute (m : Z) :
  0 <= m < 60 -> String.length (format_02d m) = 2%nat.
Proof.
  intros Hm.
  assert (forallb (fun n => Nat.eqb (String.length (format_02d (Z.of_nat n))) 2)
                  (seq 0 60) = true) as Hall by (vm_compute; reflexivity).
  rewrite forallb_forall in Hall.
  specialize (Hall (Z.to_nat m)). rewrite Z2Nat.id in Hall by lia.
  apply Nat.eqb_eq, Hall, in_seq. lia.
Qed.

(** X1. [format_time] is injective on all integers: two different minute
    counts, of any sign and size, are never rendered as the same text. *)
Theorem format_time_inj (t1 t2 : Z) :
  format_time t1 = format_time t2 -> t1 = t2.
Proof.
  unfold format_time. cbn zeta. intros Heq.
  pose proof (Z.mod_pos_bound t1 60 ltac:(lia)) as Hm1.
  pose proof (Z.mod_pos_bound t2 60 ltac:(lia)) as Hm2.
  assert (String.length (format_02d (t1 / 60))
          = String.length (format_02d (t2 / 60))) as Hlen.
  { apply (f_equal String.length) in Heq. rewrite !string_length_app in Heq.
    rewrite (format_02d_minute (t1 mod 60)), (format_02d_minute (t2 mod 60)) in Heq
      by done.
    cbn in Heq. lia. }
  destruct (string_app_inj_length _ _ _ _ Hlen Heq) as [Hh Hm].
  injection Hm as Hm. apply format_02d_inj in Hh, Hm.
  rewrite (Z.div_mod t1 60), (Z.div_mod t2 60) by lia. congruence.
Qed.

Lemma format_time_inj_witness : minutes 9 0 = 540.
Proof. apply format_time_inj. reflexivity. Defined.

Lemma format_02d_digits (n : Z) :
  0 <= n < 100 ->
  format_02d n = String (digit (n / 10)) (String (digit (n mod 10)) "").
Proof.
  intros Hn.
  assert (forallb
            (fun k =>
               let n := Z.of_nat k in
               String.eqb (format_02d n)
                          (String (digit (n / 10)) (String (digit (n mod 10)) "")))
            (seq 0 100) = true) as Hall by (vm_compute; reflexivity).
  rewrite forallb_forall in Hall.
  specialize (Hall (Z.to_nat n)). cbn zeta in Hall. rewrite Z2Nat.id in Hall by lia.
  apply String.eqb_eq, Hall, in_seq. lia.
Qed.

Lemma format_time_shape (t : Z) :
  0 <= t < 6000 ->
  format_time t
  = String (digit (t / 600)) (String (digit (t / 60 mod 10))
      (String ":" (String (digit (t mod 60 / 10))
         (String (digit (t mod 10)) "")))).
Proof.
  intros Ht. unfold format_time. cbn zeta.
  pose proof (Z.mod_pos_bound t 60 ltac:(lia)) as Hm.
  assert (0 <= t / 60 < 100) as Hh.
  { split; [apply Z.div_pos; lia|apply Z.div_lt_upper_bound; lia]. }
  rewrite (format_02d_digits (t / 60)), (format_02d_digits (t mod 60)) by lia.
  rewrite Z.div_div by lia. change (60 * 10) with 600.
  assert (t mod 60 mod 10 = t mod 10) as ->; [|done].
  rewrite (Z.div_mod t 60) at 2 by lia.
  replace (60 * (t / 60) + t mod 60) with (t mod 60 + (6 * (t / 60)) * 10) by lia.
  by rewrite Z.mod_add by lia.
Qed.

(** X2. [format_time (minutes h m)] shows exactly [h] and [m], each as
    two decimal digits, when [0 <= h < 100] and [0 <= m < 60]. *)
Theorem format_time_minutes (h m : Z) :
  0 <= h < 100 -> 0 <= m < 60 ->
  format_time (minutes h m)
  = String (digit (h / 10)) (String (digit (h mod 10))
      (String ":" (String (digit (m / 10)) (String (digit (m mod 10)) "")))).
Proof.
  intros Hh Hm. unfold minutes.
  rewrite format_time_shape by lia.
  assert ((h * 60 + m) / 60 = h) as Hdiv by (rewrite Z.div_add_l by lia; rewrite Z.div_small by lia; lia).
  assert ((h * 60 + m) mod 60 = m) as Hmod.
  { rewrite Z.add_comm, Z.mod_add by lia. by apply Z.mod_small. }
  assert ((h * 60 + m) / 600 = h / 10) as ->.
  { rewrite <- (Z.div_div _ 60 10) by lia. by rewrite Hdiv. }
  assert ((h * 60 + m) mod 10 = m mod 10) as ->.
  { replace (h * 60 + m) with (m + (h * 6) * 10) by lia. by rewrite Z.mod_add by lia. }
  by rewrite Hdiv, Hmod.
Qed.

Lemma format_time_minutes_witness :
  format_time (minutes 9 5) = "09:05".
Proof. apply (format_time_minutes 9 5); lia. Defined.

Lemma pretty_N_go_length_three (x : N) (s : string) :
  (100 <= x)%N -> (String.length s + 3 <= String.length (pretty_N_go x s))%nat.
Proof.
  intros Hx. rewrite pretty_N_go_step by lia.
  assert (10 <= x `div` 10)%N as Hd by (apply N.div_le_lower_bound; lia).
  pose proof (pretty_N_go_length_two _ (String (pretty_N_char (x `mod` 10)) s) Hd).
  cbn in *. lia.
Qed.

(** X3. [format_time] accepts every integer.  A negative count is shown
    with a minus sign in front, and a count of 6000 or more (100 hours)
    takes more than five characters: the hour is never cut to two
    digits. *)
Theorem format_time_out_of_range (t : Z) :
  (t < 0 -> exists rest, format_time t = String "-" rest) /\
  (6000 <= t -> (5 < String.length (format_time t))%nat).
Proof.
  split.
  - intros Ht. unfold format_time. cbn zeta.
    rewrite format_02d_neg by (apply Z.div_lt_upper_bound; lia). by eexists.
  - intros Ht. unfold format_time. cbn zeta.
    assert (100 <= t / 60) as Hh by (apply Z.div_le_lower_bound; lia).
    rewrite format_02d_large by lia. rewrite !string_length_app.
    rewrite format_02d_minute by (apply Z.mod_pos_bound; lia).
    destruct (t / 60) as [|p|p] eqn:Hp; try lia. rewrite pretty_Z_pos.
    pose proof (pretty_N_go_length_three (Npos p) "" ltac:(lia)). cbn in *. lia.
Qed.

(** ** Acceptance, rule by rule *)

Lemma outcome_passes (rule : IValidationRule) (r : Registration) :
  exists msg, outcome_of rule r = Ok (passes rule r, msg).
Proof.
  unfold outcome_of.
  set (s := mkStore (RegistrationService_init []) r tt).
  destruct rule as [max_sks| |]; cbn [validate passes].
  - pose proof (SksLimitRule_runs max_sks s) as Hrun. cbn zeta in Hrun.
    change (st_registration s) with r in Hrun.
    destruct (total_credits r >? max_sks) eqn:Hcmp; apply runs_fst in Hrun;
      rewrite Hrun; eexists; do 2 f_equal.
    + apply Z.gtb_lt in Hcmp. by rewrite bool_decide_eq_false_2 by lia.
    + rewrite Z.gtb_ltb, Z.ltb_ge in Hcmp. by rewrite bool_decide_eq_true_2 by lia.
  - pose proof (PrerequisiteRule_runs s) as Hrun. cbn zeta in Hrun.
    change (st_registration s) with r in Hrun.
    destruct (missing_pairs r); apply runs_fst in Hrun; rewrite Hrun; by eexists.
  - pose proof (JadwalBentrokRule_runs s) as Hrun. cbn zeta in Hrun.
    change (st_registration s) with r in Hrun.
    destruct (first_pair (flattened r)) as [[i j]|].
    + destruct Hrun as (a & b & _ & _ & Hrun). apply runs_fst in Hrun.
      rewrite Hrun. by eexists.
    + apply runs_fst in Hrun. rewrite Hrun. by eexists.
Qed.

Lemma outcomes_passes (rs : list IValidationRule) (r : Registration)
  (outs : list (bool * string)) :
  map (fun rule => outcome_of rule r) rs = map Ok outs ->
  map fst outs = map (fun rule => passes rule r) rs.
Proof.
  revert outs. induction rs as [|rule rs IH]; intros [|[b m] outs]; try done.
  cbn. intros [= Hrule Hrest]. destruct (outcome_passes rule r) as [msg Hmsg].
  rewrite Hmsg in Hrule. injection Hrule as -> _. f_equal. by apply IH.
Qed.

Lemma forallb_map_fst (outs : list (bool * string)) :
  forallb fst outs = forallb id (map fst outs).
Proof. induction outs as [|o outs IH]; cbn; [done|]. by rewrite IH. Qed.

Lemma forallb_id_map {A} (f : A -> bool) (l : list A) :
  forallb id (map f l) = forallb f l.
Proof. induction l as [|x l IH]; simpl; [done|]. by rewrite IH. Qed.

Lemma forallb_pointwise {A} (f g : A -> bool) (l : list A) :
  (forall x, f x = g x) -> forallb f l = forallb g l.
Proof. intros Hfg. induction l as [|x l IH]; simpl; [done|]. by rewrite Hfg, IH. Qed.

Lemma run_registration_passed {Sink} `{!Handler Sink} (s : Store Sink) :
  exists messages,
    fst (run_registration s)
    = Ok (forallb (fun rule => passes rule (st_registration s)) (rules (st_self s)),
          messages).
Proof.
  destruct (run_registration_result s) as (outs & Houts & Hrun).
  apply runs_fst in Hrun. rewrite Hrun. apply outcomes_passes in Houts.
  unfold aggregate. rewrite forallb_map_fst, Houts.
  rewrite forallb_id_map.
  destruct (forallb _ _); by eexists.
Qed.

Lemma run_registration_accepts {Sink} `{!Handler Sink} (s : Store Sink) :
  fst (run_registration s) = Ok (true, ["Validasi sukses."]) <->
  forallb (fun rule => passes rule (st_registration s)) (rules (st_self s)) = true.
Proof.
  destruct (run_registration_result s) as (outs & Houts & Hrun).
  destruct (run_registration_passed s) as [messages Hpassed].
  apply runs_fst in Hrun. split.
  - intros Heq. rewrite Heq in Hpassed. by injection Hpassed as <- _.
  - intros Hall. rewrite Hall in Hpassed. rewrite Hrun in *.
    unfold aggregate in *. destruct (forallb fst outs); [done|].
    by injection Hpassed.
Qed.

(** ** How acceptance depends on the selection *)

Lemma no_conflict_positions (entries : list Entry) :
  first_pair entries = None <->
  forall i j a b, i <> j -> entries !! i = Some a -> entries !! j = Some b ->
                  ~ overlap a b.
Proof.
  rewrite first_pair_None. split.
  - intros Hnone i j a b Hne Ha Hb Hab. destruct (decide (i < j)%nat).
    + apply (Hnone i j). split; [done|]. by exists a, b.
    + apply (Hnone j i). split; [lia|]. exists b, a. by auto using overlap_sym.
  - intros Hnone i j (Hij & a & b & Ha & Hb & Hab).
    apply (Hnone i j a b); [lia|done..].
Qed.

Lemma total_credits_perm (st : string) (cs : list string) (l1 l2 : list Course) :
  l1 ≡ₚ l2 ->
  total_credits (mkRegistration st cs l1) = total_credits (mkRegistration st cs l2).
Proof.
  unfold total_credits. cbn [selected_courses].
  induction 1 as [|c l1 l2 _ IH|c d l|l1 l2 l3 _ IH1 _ IH2]; cbn; lia.
Qed.

Lemma total_credits_sublist (st : string) (cs : list string) (l1 l2 : list Course) :
  l1 `sublist_of` l2 -> Forall (fun c => 0 <= sks c) l2 ->
  0 <= total_credits (mkRegistration st cs l1)
    <= total_credits (mkRegistration st cs l2).
Proof.
  unfold total_credits. cbn [selected_courses].
  induction 1 as [|c l1 l2 _ IH|c l1 l2 _ IH]; intros Hall; cbn.
  - lia.
  - apply Forall_cons in Hall as [Hc Hall]. specialize (IH Hall). lia.
  - apply Forall_cons in Hall as [Hc Hall]. specialize (IH Hall). lia.
Qed.

Lemma entries_of_perm (l1 l2 : list Course) :
  l1 ≡ₚ l2 -> entries_of l1 ≡ₚ entries_of l2.
Proof. intros Hperm. unfold entries_of. by apply Permutation_flat_map. Qed.

Lemma entries_of_sublist (l1 l2 : list Course) :
  l1 `sublist_of` l2 -> entries_of l1 `sublist_of` entries_of l2.
Proof.
  induction 1 as [|c l1 l2 _ IH|c l1 l2 _ IH]; rewrite ?entries_of_cons.
  - done.
  - by apply sublist_app.
  - by apply sublist_inserts_l.
Qed.

Lemma sublist_lookup_pair {A} (l1 l2 : list A) (i j : nat) (a b : A) :
  l1 `sublist_of` l2 -> (i < j)%nat -> l1 !! i = Some a -> l1 !! j = Some b ->
  exists i' j', (i' < j')%nat /\ l2 !! i' = Some a /\ l2 !! j' = Some b.
Proof.
  assert (forall (k1 k2 : list A) n x, k1 `sublist_of` k2 -> k1 !! n = Some x ->
                                       exists n', k2 !! n' = Some x) as Hone.
  { intros k1 k2 n x Hsub Hx. apply list_elem_of_lookup_2 in Hx.
    by apply list_elem_of_lookup_1, (elem_of_sublist k1). }
  intros Hsub. revert i j.
  induction Hsub as [|x l1 l2 Hsub IH|x l1 l2 Hsub IH]; intros i j Hij Ha Hb.
  - done.
  - destruct i as [|i], j as [|j]; try lia.
    + cbn in Ha, Hb. destruct (Hone _ _ _ _ Hsub Hb) as [j' Hj'].
      exists 0%nat, (S j'). split; [lia|]. by simplify_eq.
    + cbn in Ha, Hb. destruct (IH i j ltac:(lia) Ha Hb) as (i' & j' & ? & ? & ?).
      exists (S i'), (S j'). split; [lia|done].
  - destruct (IH i j Hij Ha Hb) as (i' & j' & ? & ? & ?).
    exists (S i'), (S j'). split; [lia|done].
Qed.

Lemma no_conflict_sublist (e1 e2 : list Entry) :
  e1 `sublist_of` e2 -> first_pair e2 = None -> first_pair e1 = None.
Proof.
  rewrite !first_pair_None. intros Hsub Hnone i j (Hij & a & b & Ha & Hb & Hab).
  destruct (sublist_lookup_pair e1 e2 i j a b Hsub Hij Ha Hb) as (i' & j' & ? & ? & ?).
  apply (Hnone i' j'). split; [done|]. by exists a, b.
Qed.

Lemma no_conflict_perm (e1 e2 : list Entry) :
  e1 ≡ₚ e2 -> first_pair e1 = None -> first_pair e2 = None.
Proof.
  rewrite !no_conflict_positions. intros Hperm Hnone i j a b Hne Ha Hb.
  symmetry in Hperm. apply Permutation_inj in Hperm as (_ & f & Hinj & Hf).
  apply (Hnone (f i) (f j)); [|by rewrite <- Hf..].
  intros Heq. by apply Hinj in Heq.
Qed.

Lemma missing_pairs_nil_elem (r : Registration) :
  missing_pairs r = [] <->
  forall c p, c ∈ selected_courses r -> p ∈ prerequisites c ->
              p ∈ completed_courses r.
Proof.
  rewrite missing_pairs_nil, Forall_forall. split.
  - intros Hall c p Hc Hp. specialize (Hall c Hc). rewrite Forall_forall in Hall.
    by apply Hall.
  - intros Hall c Hc. apply Forall_forall. intros p Hp. by apply (Hall c).
Qed.

Lemma passes_perm (rule : IValidationRule) (st : string) (cs : list string)
  (l1 l2 : list Course) :
  l1 ≡ₚ l2 ->
  passes rule (mkRegistration st cs l1) = passes rule (mkRegistration st cs l2).
Proof.
  intros Hperm. destruct rule as [max_sks| |]; cbn [passes].
  - by rewrite (total_credits_perm st cs l1 l2).
  - apply bool_decide_ext. rewrite !missing_pairs_nil_elem. cbn.
    by setoid_rewrite Hperm.
  - apply bool_decide_ext. unfold flattened. cbn. split.
    + by apply no_conflict_perm, entries_of_perm.
    + by apply no_conflict_perm, entries_of_perm.
Qed.

Lemma passes_sublist (rule : IValidationRule) (st : string) (cs : list string)
  (l1 l2 : list Course) :
  l1 `sublist_of` l2 -> Forall (fun c => 0 <= sks c) l2 ->
  passes rule (mkRegistration st cs l2) = true ->
  passes rule (mkRegistration st cs l1) = true.
Proof.
  intros Hsub Hsks. destruct rule as [max_sks| |]; cbn [passes];
    rewrite !bool_decide_eq_true.
  - pose proof (total_credits_sublist st cs l1 l2 Hsub Hsks). lia.
  - rewrite !missing_pairs_nil_elem. cbn. intros Hall c p Hc Hp.
    apply (Hall c p); [|done]. by apply (elem_of_sublist l1).
  - unfold flattened. cbn. by apply no_conflict_sublist, entries_of_sublist.
Qed.

Lemma passes_completed (rule : IValidationRule) (st : string)
  (cs1 cs2 : list string) (l : list Course) :
  (forall x, x ∈ cs1 -> x ∈ cs2) ->
  passes rule (mkRegistration st cs1 l) = true ->
  passes rule (mkRegistration st cs2 l) = true.
Proof.
  intros Hsub. destruct rule as [max_sks| |]; cbn [passes]; [done| |done].
  rewrite !bool_decide_eq_true, !missing_pairs_nil_elem. cbn.
  intros Hall c p Hc Hp. by apply Hsub, (Hall c).
Qed.

(** X4. Whether [run_registration] accepts does not depend on the order
    of the selected courses: for two selections that are permutations of
    each other the returned boolean is the same (the messages may name
    different pairs, in a different order). *)
Theorem run_registration_selection_order {Sink} `{!Handler Sink}
  (svc : RegistrationService) (k : Sink) (st : string) (cs : list string)
  (l1 l2 : list Course) :
  l1 ≡ₚ l2 ->
  exists passed messages1 messages2,
    fst (run_registration (mkStore svc (mkRegistration st cs l1) k))
    = Ok (passed, messages1) /\
    fst (run_registration (mkStore svc (mkRegistration st cs l2) k))
    = Ok (passed, messages2).
Proof.
  intros Hperm.
  destruct (run_registration_passed (mkStore svc (mkRegistration st cs l1) k))
    as [m1 H1].
  destruct (run_registration_passed (mkStore svc (mkRegistration st cs l2) k))
    as [m2 H2].
  cbn [st_registration st_self] in *. eexists _, m1, m2. split; [exact H1|].
  rewrite H2. do 2 f_equal. apply forallb_pointwise. intros rule. symmetry.
  by apply passes_perm.
Qed.

Lemma run_registration_selection_order_witness :
  exists passed messages1 messages2,
    fst (run_registration
           (fresh (RegistrationService_init demo_rules)
                  (mkRegistration "Ani" ["MAT101"] [mat101; fis201; ifs300])))
    = Ok (passed, messages1) /\
    fst (run_registration
           (fresh (RegistrationService_init demo_rules)
                  (mkRegistration "Ani" ["MAT101"] [fis201; mat101; ifs300])))
    = Ok (passed, messages2).
Proof.
  apply (run_registration_selection_order (Sink:=list LogRecord)).
  apply perm_swap.
Defined.

(** X5. Dropping courses from an accepted registration keeps it accepted,
    when no selected course has a negative credit weight: if
    [run_registration] accepts a selection, it accepts every selection
    obtained by removing courses from it. *)
Theorem run_registration_drop_courses {Sink} `{!Handler Sink}
  (svc : RegistrationService) (k : Sink) (st : string) (cs : list string)
  (l1 l2 : list Course) :
  l1 `sublist_of` l2 ->
  Forall (fun c => 0 <= sks c) l2 ->
  fst (run_registration (mkStore svc (mkRegistration st cs l2) k))
  = Ok (true, ["Validasi sukses."]) ->
  fst (run_registration (mkStore svc (mkRegistration st cs l1) k))
  = Ok (true, ["Validasi sukses."]).
Proof.
  intros Hsub Hsks. rewrite !run_registration_accepts. cbn [st_registration st_self].
  rewrite !forallb_forall. intros Hall rule Hrule.
  by apply (passes_sublist rule st cs l1 l2), Hall.
Qed.

Lemma run_registration_drop_courses_witness :
  fst (run_registration
         (fresh (RegistrationService_init demo_rules)
                (mkRegistration "Ani" ["MAT101"; "FIS201"] [mat101])))
  = Ok (true, ["Validasi sukses."]).
Proof.
  apply (run_registration_drop_courses (Sink:=list LogRecord) _ _ _ _
           [mat101] [mat101; ifs300]).
  - apply sublist_skip, sublist_nil_l.
  - repeat constructor; vm_compute; discriminate.
  - vm_compute. reflexivity.
Defined.

(** ** What a run depends on *)

(** A rule's result and records are determined by the credit total, the
    missing pairs and the flattened entries of the registration. *)
Lemma validate_ext {Sink1 Sink2} `{!Handler Sink1} `{!Handler Sink2}
  (rule : IValidationRule) (s1 : Store Sink1) (s2 : Store Sink2) :
  total_credits (st_registration s1) = total_credits (st_registration s2) ->
  missing_pairs (st_registration s1) = missing_pairs (st_registration s2) ->
  flattened (st_registration s1) = flattened (st_registration s2) ->
  exists v rs, runs (validate rule) s1 v rs /\ runs (validate rule) s2 v rs.
Proof.
  intros Htotal Hmissing Hflat. destruct rule as [max_sks| |]; cbn [validate].
  - pose proof (SksLimitRule_runs max_sks s1) as H1.
    pose proof (SksLimitRule_runs max_sks s2) as H2. cbn zeta in H1, H2.
    rewrite <- Htotal in H2. destruct (_ >? _); by eexists _, _.
  - pose proof (PrerequisiteRule_runs s1) as H1.
    pose proof (PrerequisiteRule_runs s2) as H2. cbn zeta in H1, H2.
    rewrite <- Hmissing in H2. destruct (missing_pairs _); by eexists _, _.
  - pose proof (JadwalBentrokRule_runs s1) as H1.
    pose proof (JadwalBentrokRule_runs s2) as H2. cbn zeta in H1, H2.
    rewrite <- Hflat in H2. destruct (first_pair _) as [[i j]|].
    + destruct H1 as (a & b & Ha & Hb & H1), H2 as (a' & b' & Ha' & Hb' & H2).
      simplify_eq. by eexists _, _.
    + by eexists _, _.
Qed.

Lemma outcome_records_ext (rule : IValidationRule) (r1 r2 : Registration) :
  total_credits r1 = total_credits r2 ->
  missing_pairs r1 = missing_pairs r2 ->
  flattened r1 = flattened r2 ->
  outcome_of rule r1 = outcome_of rule r2 /\ records_of rule r1 = records_of rule r2.
Proof.
  intros Htotal Hmissing Hflat. unfold outcome_of, records_of. split.
  - destruct (validate_ext rule
                (mkStore (RegistrationService_init []) r1 tt)
                (mkStore (RegistrationService_init []) r2 tt))
      as (v & rs & H1 & H2); [done..|].
    apply runs_fst in H1, H2. congruence.
  - destruct (validate_ext rule (fresh (RegistrationService_init []) r1)
                (fresh (RegistrationService_init []) r2))
      as (v & rs & H1 & H2); [done..|].
    apply runs_snd in H1, H2. rewrite H1, H2.
    by rewrite !st_sink_emits_recording.
Qed.

Lemma st_sink_emits (Sink : Type) (H : Handler Sink) (rs : list LogRecord)
  (s1 s2 : Store Sink) :
  st_sink s1 = st_sink s2 -> st_sink (emits rs s1) = st_sink (emits rs s2).
Proof.
  revert s1 s2. induction rs as [|r rs IH]; intros s1 s2 Hs; [done|].
  change (emits (r :: rs) ?s) with (emits rs (log_sink r s)).
  apply IH. cbn. by rewrite Hs.
Qed.

Lemma run_registration_ext {Sink} `{!Handler Sink} (s1 s2 : Store Sink) :
  st_self s1 = st_self s2 -> st_sink s1 = st_sink s2 ->
  student_name (st_registration s1) = student_name (st_registration s2) ->
  total_credits (st_registration s1) = total_credits (st_registration s2) ->
  missing_pairs (st_registration s1) = missing_pairs (st_registration s2) ->
  flattened (st_registration s1) = flattened (st_registration s2) ->
  fst (run_registration s1) = fst (run_registration s2) /\
  st_sink (snd (run_registration s1)) = st_sink (snd (run_registration s2)).
Proof.
  intros Hself Hsink Hname Htotal Hmissing Hflat.
  destruct (run_registration_result s1) as (o1 & Ho1 & Hr1).
  destruct (run_registration_result s2) as (o2 & Ho2 & Hr2).
  assert (forall rule,
    outcome_of rule (st_registration s1) = outcome_of rule (st_registration s2) /\
    records_of rule (st_registration s1) = records_of rule (st_registration s2))
    as Hrule by (intros rule; by apply outcome_records_ext).
  rewrite Hself in Ho1, Hr1.
  assert (o1 = o2) as <-.
  { apply map_Ok_inj. rewrite <- Ho1, <- Ho2. apply map_ext. intros rule. apply Hrule. }
  split.
  - apply runs_fst in Hr1, Hr2. congruence.
  - rewrite (runs_snd _ _ _ _ Hr1), (runs_snd _ _ _ _ Hr2).
    unfold opening_record. rewrite Hname.
    replace (flat_map (fun rule => records_of rule (st_registration s1)) (rules (st_self s2)))
      with (flat_map (fun rule => records_of rule (st_registration s2)) (rules (st_self s2))).
    { by apply st_sink_emits. }
    apply flat_map_ext. intros rule. symmetry. apply Hrule.
Qed.

(** X6. [run_registration] reads the completed courses as a set: two
    lists of completed courses with the same members, whatever their
    order and repetitions, give the same result and the same log. *)
Theorem run_registration_completed_as_set {Sink} `{!Handler Sink}
  (svc : RegistrationService) (k : Sink) (st : string)
  (cs1 cs2 : list string) (l : list Course) :
  (forall x, x ∈ cs1 <-> x ∈ cs2) ->
  fst (run_registration (mkStore svc (mkRegistration st cs1 l) k))
  = fst (run_registration (mkStore svc (mkRegistration st cs2 l) k)) /\
  st_sink (snd (run_registration (mkStore svc (mkRegistration st cs1 l) k)))
  = st_sink (snd (run_registration (mkStore svc (mkRegistration st cs2 l) k))).
Proof.
  intros Hsame. apply run_registration_ext; try done.
  unfold missing_pairs. cbn. apply flat_map_ext. intros c. f_equal.
  apply list_filter_iff. intros p. by rewrite Hsame.
Qed.

Lemma run_registration_completed_as_set_witness :
  fst (run_registration
         (fresh (RegistrationService_init demo_rules)
                (mkRegistration "Ani" ["MAT101"; "FIS201"] [ifs300])))
  = fst (run_registration
           (fresh (RegistrationService_init demo_rules)
                  (mkRegistration "Ani" ["FIS201"; "MAT101"; "FIS201"] [ifs300]))).
Proof.
  apply (run_registration_completed_as_set (Sink:=list LogRecord)).
  intros x. rewrite !elem_of_cons, !elem_of_nil. tauto.
Defined.

(** X7. Completing more courses never turns an accepted registration into
    a rejected one. *)
Theorem run_registration_more_completed {Sink} `{!Handler Sink}
  (svc : RegistrationService) (k : Sink) (st : string)
  (cs1 cs2 : list string) (l : list Course) :
  (forall x, x ∈ cs1 -> x ∈ cs2) ->
  fst (run_registration (mkStore svc (mkRegistration st cs1 l) k))
  = Ok (true, ["Validasi sukses."]) ->
  fst (run_registration (mkStore svc (mkRegistration st cs2 l) k))
  = Ok (true, ["Validasi sukses."]).
Proof.
  intros Hsub. rewrite !run_registration_accepts. cbn [st_registration st_self].
  rewrite !forallb_forall. intros Hall rule Hrule.
  by apply (passes_completed rule st cs1 cs2 l), Hall.
Qed.

Lemma run_registration_more_completed_witness :
  fst (run_registration
         (fresh (RegistrationService_init demo_rules)
                (mkRegistration "Ani" ["MAT101"; "FIS201"] [mat101])))
  = Ok (true, ["Validasi sukses."]).
Proof.
  apply (run_registration_more_completed (Sink:=list LogRecord) _ _ _
           [] ["MAT101"; "FIS201"]).
  - intros x Hx. by apply elem_of_nil in Hx.
  - vm_compute. reflexivity.
Defined.

(** ** How rule lists compose *)

Lemma aggregate_app (o1 o2 : list (bool * string)) :
  aggregate (o1 ++ o2)
  = (fst (aggregate o1) && fst (aggregate o2),
     if fst (aggregate o1) && fst (aggregate o2) then ["Validasi sukses."]
     else (if fst (aggregate o1) then [] else snd (aggregate o1))
          ++ (if fst (aggregate o2) then [] else snd (aggregate o2))).
Proof.
  unfold aggregate. rewrite forallb_app, List.filter_app, map_app.
  pose proof (forallb_failures o1) as H1. pose proof (forallb_failures o2) as H2.
  destruct (forallb fst o1), (forallb fst o2); cbn [fst snd andb]; try done.
  - destruct H1 as [H1 _]. rewrite (H1 eq_refl). reflexivity.
  - destruct H2 as [H2 _]. rewrite (H2 eq_refl). cbn [map]. by rewrite !app_nil_r.
Qed.

(** X8. Running a service whose rules are [rs1 ++ rs2] combines the runs
    with [rs1] and with [rs2]: it accepts exactly when both accept, and
    otherwise returns the failure messages of the first followed by the
    failure messages of the second. *)
Theorem run_registration_app {Sink} `{!Handler Sink}
  (rs1 rs2 : list IValidationRule) (r : Registration) (k : Sink) :
  exists p1 m1 p2 m2,
    fst (run_registration (mkStore (RegistrationService_init rs1) r k))
    = Ok (p1, m1) /\
    fst (run_registration (mkStore (RegistrationService_init rs2) r k))
    = Ok (p2, m2) /\
    fst (run_registration (mkStore (RegistrationService_init (rs1 ++ rs2)) r k))
    = Ok (p1 && p2,
          if p1 && p2 then ["Validasi sukses."]
          else (if p1 then [] else m1) ++ (if p2 then [] else m2)).
Proof.
  destruct (run_registration_result (mkStore (RegistrationService_init rs1) r k))
    as (o1 & Ho1 & Hr1).
  destruct (run_registration_result (mkStore (RegistrationService_init rs2) r k))
    as (o2 & Ho2 & Hr2).
  destruct (run_registration_result
              (mkStore (RegistrationService_init (rs1 ++ rs2)) r k))
    as (o & Ho & Hr).
  cbn [st_registration st_self rules RegistrationService_init] in *.
  assert (o = o1 ++ o2) as ->.
  { apply map_Ok_inj. by rewrite <- Ho, !map_app, Ho1, Ho2. }
  apply runs_fst in Hr1, Hr2, Hr. rewrite Hr1, Hr2, Hr, aggregate_app.
  destruct (aggregate o1) as [p1 m1], (aggregate o2) as [p2 m2].
  by exists p1, m1, p2, m2.
Qed.

(** X9. Reordering the rules of a service changes neither the verdict
    nor the set of messages: the returned boolean is the same and the
    message lists are permutations of each other. *)
Theorem run_registration_rule_order {Sink} `{!Handler Sink}
  (rs1 rs2 : list IValidationRule) (r : Registration) (k : Sink) :
  rs1 ≡ₚ rs2 ->
  exists passed m1 m2,
    fst (run_registration (mkStore (RegistrationService_init rs1) r k))
    = Ok (passed, m1) /\
    fst (run_registration (mkStore (RegistrationService_init rs2) r k))
    = Ok (passed, m2) /\
    m1 ≡ₚ m2.
Proof.
  intros Hperm.
  destruct (run_registration_result (mkStore (RegistrationService_init rs1) r k))
    as (o1 & Ho1 & Hr1).
  destruct (run_registration_result (mkStore (RegistrationService_init rs2) r k))
    as (o2 & Ho2 & Hr2).
  cbn [st_registration st_self rules RegistrationService_init] in *.
  assert (o1 ≡ₚ o2) as Houts.
  { apply (Permutation_map (fun rule => outcome_of rule r)) in Hperm.
    rewrite Ho1, Ho2 in Hperm.
    apply Permutation_map_inv in Hperm as (o3 & Heq & Hperm).
    apply map_Ok_inj in Heq as ->. by symmetry. }
  apply runs_fst in Hr1, Hr2. rewrite Hr1, Hr2. unfold aggregate.
  assert (forallb fst o1 = forallb fst o2) as ->.
  { clear -Houts. induction Houts as [|x l1 l2 _ IH|x y l|l1 l2 l3 _ IH1 _ IH2];
      cbn; try done; [by rewrite IH|by destruct (fst x), (fst y)|congruence]. }
  destruct (forallb fst o2); eexists _, _, _; repeat split; try done.
  apply Permutation_map. clear -Houts.
  induction Houts as [|x l1 l2 _ IH|x y l|l1 l2 l3 _ IH1 _ IH2]; cbn; try done.
  - destruct (negb (fst x)); [by constructor|done].
  - destruct (negb (fst x)), (negb (fst y)); try done. apply perm_swap.
  - by etrans.
Qed.

Lemma run_registration_rule_order_witness :
  exists passed m1 m2,
    fst (run_registration
           (fresh (RegistrationService_init
                     [SksLimitRule 24; PrerequisiteRule; JadwalBentrokRule]) reg))
    = Ok (passed, m1) /\
    fst (run_registration
           (fresh (RegistrationService_init
                     [PrerequisiteRule; SksLimitRule 24; JadwalBentrokRule]) reg))
    = Ok (passed, m2) /\
    m1 ≡ₚ m2.
Proof.
  apply (run_registration_rule_order (Sink:=list LogRecord)).
  apply perm_swap.
Defined.

(** ** The log and the result *)

(** A rule logs its opening record, and then its failure message as a
    warning exactly when it fails. *)
Lemma records_of_outcome (rule : IValidationRule) (r : Registration) :
  exists info passed msg,
    outcome_of rule r = Ok (passed, msg) /\
    records_of rule r
    = mkLogRecord INFO info
      :: (if passed then [] else [mkLogRecord WARNING msg]).
Proof.
  destruct (validate_uniform rule r) as (v & rs & Hrun).
  pose proof (Hrun unit _ (mkStore (RegistrationService_init []) r tt) eq_refl) as H1.
  pose proof (Hrun _ _ (fresh (RegistrationService_init []) r) eq_refl) as H2.
  unfold outcome_of, records_of.
  rewrite (runs_fst _ _ _ _ H1), (runs_snd _ _ _ _ H2), st_sink_emits_recording.
  cbn [fresh st_sink app]. clear H1 H2.
  set (s := fresh (RegistrationService_init []) r).
  specialize (Hrun _ _ s eq_refl).
  assert (forall v' rs', runs (validate rule) s v' rs' -> v' = v /\ rs' = rs) as Hdet.
  { intros v' rs' Hrun'. unfold runs in *. rewrite Hrun in Hrun'.
    injection Hrun' as <- Hs. split; [done|].
    apply (f_equal st_sink) in Hs. rewrite !st_sink_emits_recording in Hs.
    by apply app_inv_head in Hs. }
  destruct rule as [max_sks| |]; cbn [validate] in *.
  - pose proof (SksLimitRule_runs max_sks s) as Hr. cbn zeta in Hr.
    destruct (_ >? _); apply Hdet in Hr as [<- <-]; by eexists _, _, _.
  - pose proof (PrerequisiteRule_runs s) as Hr. cbn zeta in Hr.
    destruct (missing_pairs _); apply Hdet in Hr as [<- <-]; by eexists _, _, _.
  - pose proof (JadwalBentrokRule_runs s) as Hr. cbn zeta in Hr.
    destruct (first_pair _) as [[i j]|].
    + destruct Hr as (a & b & _ & _ & Hr). apply Hdet in Hr as [<- <-].
      by eexists _, _, _.
    + apply Hdet in Hr as [<- <-]. by eexists _, _, _.
Qed.

Lemma at_level_app (l : Level) (a b : list LogRecord) :
  at_level l (a ++ b) = at_level l a ++ at_level l b.
Proof. unfold at_level. apply List.filter_app. Qed.

Lemma rule_records_at_level (rs : list IValidationRule) (r : Registration)
  (outs : list (bool * string)) :
  map (fun rule => outcome_of rule r) rs = map Ok outs ->
  map msg_of (at_level WARNING (flat_map (fun rule => records_of rule r) rs))
  = map snd (List.filter (fun o => negb (fst o)) outs) /\
  at_level ERROR (flat_map (fun rule => records_of rule r) rs) = [].
Proof.
  revert outs. induction rs as [|rule rs IH]; intros [|[b m] outs]; try done.
  cbn [map flat_map]. intros [= Hrule Hrest].
  destruct (IH _ Hrest) as [IHw IHe].
  destruct (records_of_outcome rule r) as (info & passed & msg & Hout & Hrec).
  rewrite Hout in Hrule. injection Hrule as -> ->.
  rewrite !at_level_app, map_app, IHw, IHe, Hrec.
  by destruct b.
Qed.

(** X10. The log agrees with the result.  On a sink that keeps every
    record, the messages logged at WARNING during [run_registration] are
    exactly the returned failure messages, in the same order, and none
    when the registration is accepted; exactly one ERROR record is logged
    when it is rejected and none when it is accepted. *)
Theorem run_registration_log_matches (svc : RegistrationService)
  (r : Registration) :
  exists passed messages,
    fst (run_registration (fresh svc r)) = Ok (passed, messages) /\
    let log := st_sink (snd (run_registration (fresh svc r))) in
    map msg_of (at_level WARNING log) = (if passed then [] else messages) /\
    length (at_level ERROR log) = (if passed then 0%nat else 1%nat).
Proof.
  destruct (run_registration_result (fresh svc r)) as (outs & Houts & Hrun).
  cbn [fresh st_registration st_self] in *.
  destruct (rule_records_at_level _ _ _ Houts) as [Hwarn Herr].
  rewrite (runs_fst _ _ _ _ Hrun), (runs_snd _ _ _ _ Hrun).
  rewrite st_sink_emits_recording. cbn zeta. cbn [fresh st_sink app].
  change (?x :: ?l ++ [?y]) with ([x] ++ l ++ [y]).
  rewrite !at_level_app, !map_app, !length_app, Hwarn, Herr.
  unfold aggregate, closing_record.
  pose proof (forallb_failures outs) as Hall.
  destruct (forallb fst outs).
  - exists true, ["Validasi sukses."]. split; [done|].
    destruct Hall as [Hall _]. by rewrite (Hall eq_refl).
  - eexists false, _. split; [done|]. cbn. by rewrite app_nil_r.
Qed.

(** ** Edge cases of the selection *)

Lemma JadwalBentrokRule_conflict_fails {Sink} `{!Handler Sink} (s : Store Sink) :
  (exists i j, conflict_at (flattened (st_registration s)) i j) ->
  exists msg, fst (JadwalBentrokRule_validate s) = Ok (false, msg).
Proof.
  intros Hex. apply first_conflict_exists in Hex as (i & j & Hfirst).
  pose proof (conflict_at_lt _ _ _ (proj1 Hfirst)) as Hlt.
  destruct (lookup_lt_is_Some_2 (flattened (st_registration s)) i ltac:(lia))
    as [a Ha].
  destruct (lookup_lt_is_Some_2 (flattened (st_registration s)) j ltac:(lia))
    as [b Hb].
  exists (conflict_message a b). eapply runs_fst.
  by apply JadwalBentrokRule_fails with (i := i) (j := j).
Qed.

(** X11. The selection is not deduplicated: when a course that has an
    interval with [start < end] is selected twice,
    [JadwalBentrokRule.validate] fails. *)
Theorem JadwalBentrokRule_selected_twice {Sink} `{!Handler Sink}
  (s : Store Sink) (c : Course) (l1 l2 l3 : list Course)
  (day : string) (start stop : Z) :
  selected_courses (st_registration s) = l1 ++ c :: l2 ++ c :: l3 ->
  (day, start, stop) ∈ schedule c ->
  start < stop ->
  exists msg, fst (JadwalBentrokRule_validate s) = Ok (false, msg).
Proof.
  intros Hsel Hin Hlt. apply JadwalBentrokRule_conflict_fails.
  unfold flattened. rewrite Hsel.
  apply list_elem_of_lookup_1 in Hin as [p Hp].
  set (x := tag c (day, start, stop)).
  assert (map (tag c) (schedule c) !! p = Some x) as Hx.
  { change (map (tag c) (schedule c)) with (tag c <$> schedule c).
    rewrite list_lookup_fmap. exact (f_equal (fmap (tag c)) Hp). }
  pose proof (lookup_lt_Some _ _ _ Hx) as Hplen.
  rewrite entries_of_app, entries_of_cons, entries_of_app, entries_of_cons.
  set (E1 := entries_of l1). set (Ec := map (tag c) (schedule c)) in *.
  set (E2 := entries_of l2). set (E3 := entries_of l3).
  exists (length E1 + p)%nat, (length E1 + length Ec + length E2 + p)%nat.
  split; [lia|]. exists x, x. repeat split; try done.
  - rewrite lookup_app_r by lia. rewrite lookup_app_l by lia.
    by replace (length E1 + p - length E1)%nat with p by lia.
  - rewrite lookup_app_r by lia. rewrite lookup_app_r by lia.
    rewrite lookup_app_r by lia. rewrite lookup_app_l by lia.
    by replace (_ - _ - _ - _)%nat with p by lia.
Qed.

Lemma JadwalBentrokRule_selected_twice_witness :
  exists msg,
    fst (JadwalBentrokRule_validate
           (fresh (RegistrationService_init [])
                  (mkRegistration "Ani" [] [mat101; ifs300; mat101])))
    = Ok (false, msg).
Proof.
  apply (JadwalBentrokRule_selected_twice
           (fresh (RegistrationService_init [])
                  (mkRegistration "Ani" [] [mat101; ifs300; mat101]))
           mat101 [] [ifs300] [] "Senin" (minutes 9 0) (minutes 11 0)).
  - reflexivity.
  - left.
  - vm_compute. reflexivity.
Defined.

(** X12. With nothing selected, [run_registration] accepts, whatever the
    rules of the service and their order, as long as no credit cap is
    negative. *)
Theorem run_registration_empty_selection {Sink} `{!Handler Sink}
  (svc : RegistrationService) (k : Sink) (st : string) (cs : list string) :
  Forall (fun rule => match rule with
                      | SksLimitRule max_sks => 0 <= max_sks
                      | _ => True
                      end) (rules svc) ->
  fst (run_registration (mkStore svc (mkRegistration st cs []) k))
  = Ok (true, ["Validasi sukses."]).
Proof.
  intros Hcaps. apply run_registration_accepts. cbn [st_registration st_self].
  apply forallb_forall. intros rule Hrule.
  rewrite Forall_forall in Hcaps. apply list_elem_of_In, Hcaps in Hrule.
  destruct rule as [max_sks| |]; cbn [passes]; apply bool_decide_eq_true.
  - unfold total_credits. cbn. lia.
  - done.
  - done.
Qed.

Lemma run_registration_empty_selection_witness :
  fst (run_registration
         (fresh (RegistrationService_init demo_rules)
                (mkRegistration "Ani" ["MAT101"] [])))
  = Ok (true, ["Validasi sukses."]).
Proof.
  apply (run_registration_empty_selection (Sink:=list LogRecord)).
  unfold demo_rules. cbn. repeat constructor. lia.
Defined.

Lemma JadwalBentrokRule_ext {Sink1 Sink2} `{!Handler Sink1} `{!Handler Sink2}
  (s1 : Store Sink1) (s2 : Store Sink2) :
  flattened (st_registration s1) = flattened (st_registration s2) ->
  fst (JadwalBentrokRule_validate s1) = fst (JadwalBentrokRule_validate s2).
Proof.
  intros Hflat.
  pose proof (JadwalBentrokRule_runs s1) as H1.
  pose proof (JadwalBentrokRule_runs s2) as H2. cbn zeta in H1, H2.
  rewrite <- Hflat in H2. destruct (first_pair _) as [[i j]|].
  - destruct H1 as (a & b & Ha & Hb & H1), H2 as (a' & b' & Ha' & Hb' & H2).
    simplify_eq. apply runs_fst in H1, H2. congruence.
  - apply runs_fst in H1, H2. congruence.
Qed.

(** X13. A selected course without schedule entries has no influence on
    [JadwalBentrokRule.validate]: the rule returns the same, message
    included, with the course and without it. *)
Theorem JadwalBentrokRule_unscheduled_course {Sink} `{!Handler Sink}
  (svc : RegistrationService) (k : Sink) (st : string) (cs : list string)
  (c : Course) (l1 l2 : list Course) :
  schedule c = [] ->
  fst (JadwalBentrokRule_validate
         (mkStore svc (mkRegistration st cs (l1 ++ c :: l2)) k))
  = fst (JadwalBentrokRule_validate
           (mkStore svc (mkRegistration st cs (l1 ++ l2)) k)).
Proof.
  intros Hsch. apply JadwalBentrokRule_ext. unfold flattened. cbn.
  by rewrite !entries_of_app, entries_of_cons, Hsch.
Qed.

Lemma JadwalBentrokRule_unscheduled_course_witness :
  fst (JadwalBentrokRule_validate
         (fresh (RegistrationService_init [])
                (mkRegistration "Ani" []
                   [mat101; mkCourse "TA400" "Tugas Akhir" 6 [] []; fis201])))
  = fst (JadwalBentrokRule_validate
           (fresh (RegistrationService_init [])
                  (mkRegistration "Ani" [] [mat101; fis201]))).
Proof.
  apply (JadwalBentrokRule_unscheduled_course (Sink:=list LogRecord) _ _ _ _
           (mkCourse "TA400" "Tugas Akhir" 6 [] []) [mat101] [fis201]).
  reflexivity.
Defined.

(** ** The checkout coordinator *)

(** X14. [run_checkout] returns the verdict of the payment processor,
    whatever the processor and the notifier are.  When the verdict is
    negative it neither assigns the status nor calls the notifier: it
    leaves the order and the standard output as the processor left them
    and only logs one ERROR record. *)
Theorem run_checkout_verdict {Price Sink P N : Type} `{!Handler Sink}
  `{!Checkout.IPaymentProcessor Price Sink P}
  `{!Checkout.INotificationService Price Sink N}
  (str_price : Price -> string) (self : Checkout.CheckoutService P N)
  (w : Checkout.World Price Sink) :
  let opening :=
    mkLogRecord INFO ("Memulai checkout untuk "
                      +:+ Checkout.customer_name (Checkout.w_order w)
                      +:+ ". Total: "
                      +:+ str_price (Checkout.total_price (Checkout.w_order w))) in
  let started :=
    Checkout.mkWorld (Checkout.w_order w) (Checkout.w_stdout w)
                     (handle opening (Checkout.w_sink w)) in
  let paid := Checkout.process (Checkout.payment_processor self) started in
  fst (Checkout.run_checkout str_price self w) = fst paid /\
  (fst paid = false ->
   Checkout.w_order (snd (Checkout.run_checkout str_price self w))
   = Checkout.w_order (snd paid) /\
   Checkout.w_stdout (snd (Checkout.run_checkout str_price self w))
   = Checkout.w_stdout (snd paid) /\
   Checkout.w_sink (snd (Checkout.run_checkout str_price self w))
   = handle (mkLogRecord ERROR "Pembayaran gagal. Transaksi dibatalkan.")
            (Checkout.w_sink (snd paid))).
Proof.
  intros opening started paid.
  unfold Checkout.run_checkout, mbind, Checkout.C_bind, Checkout.order,
    Checkout.LOGGER_log. cbn.
  fold opening. fold started. fold paid.
  destruct paid as [[|] w']; cbn.
  - split; [|done].
    destruct (Checkout.send _ _) as [[] w'']. done.
  - done.
Qed.

Lemma run_checkout_credit_card_run {Price Sink : Type} `{!Handler Sink}
  (str_price : Price -> string) (o : Checkout.Order Price)
  (out : list string) (sink : Sink) :
  Checkout.run_checkout str_price
    (Checkout.mkCheckoutService Checkout.mkCreditCardProcessor
                                Checkout.mkEmailNotifier)
    (Checkout.mkWorld o out sink)
  = (true,
     Checkout.mkWorld
       (Checkout.mkOrder (Checkout.customer_name o) (Checkout.total_price o) "paid")
       ((out ++ ["Payment: Memproses Kartu Kredit."])
        ++ ["Notif: Mengirim email konfirmasi ke "
            +:+ Checkout.customer_name o +:+ "."])
       (handle (mkLogRecord INFO "Checkout Sukses. Status pesanan: PAID.")
          (handle (mkLogRecord INFO
                     ("Memulai checkout untuk " +:+ Checkout.customer_name o
                      +:+ ". Total: " +:+ str_price (Checkout.total_price o)))
                  sink))).
Proof. reflexivity. Qed.

(** X15. With the credit card processor and the e-mail notifier,
    [run_checkout] succeeds on every order, whatever its status: the
    status becomes "paid", the customer and the price are kept, and the
    payment line and then the notification line are printed.  No status
    is checked first, so a second checkout of the same order is paid and
    notified again. *)
Theorem run_checkout_credit_card {Price Sink : Type} `{!Handler Sink}
  (str_price : Price -> string) (w : Checkout.World Price Sink) :
  let svc := Checkout.mkCheckoutService Checkout.mkCreditCardProcessor
                                        Checkout.mkEmailNotifier in
  let o := Checkout.w_order w in
  let lines := ["Payment: Memproses Kartu Kredit.";
                "Notif: Mengirim email konfirmasi ke "
                +:+ Checkout.customer_name o +:+ "."] in
  let once := Checkout.run_checkout str_price svc w in
  let twice := Checkout.run_checkout str_price svc (snd once) in
  fst once = true /\
  Checkout.w_order (snd once)
  = Checkout.mkOrder (Checkout.customer_name o) (Checkout.total_price o) "paid" /\
  Checkout.w_stdout (snd once) = Checkout.w_stdout w ++ lines /\
  fst twice = true /\
  Checkout.w_order (snd twice) = Checkout.w_order (snd once) /\
  Checkout.w_stdout (snd twice) = Checkout.w_stdout w ++ lines ++ lines.
Proof.
  intros svc o lines once twice. subst twice once svc lines o.
  destruct w as [o out sink]. rewrite run_checkout_credit_card_run.
  cbn [fst snd]. rewrite run_checkout_credit_card_run.
  cbn [fst snd Checkout.w_order Checkout.w_stdout Checkout.customer_name
       Checkout.total_price].
  repeat split.
  - by rewrite <- app_assoc.
  - by rewrite <- !app_assoc.
Qed.
